(** * Deck importer and markdown export of the presentation generator

    A shallow embedding of [parsePptx] (src/App.tsx), of the markdown
    serialisation inside [handleDownload] and of the slide updates of
    [handleSave] and [handleGenerateImage] (src/components/SlideViewer.tsx,
    src/components/VideoPlayer.tsx), together with the DOM, archive and
    promise operations those functions call; and of the handlers of the
    application shell, the content generator
    (src/services/geminiService.ts), the voice commands
    (src/hooks/useVoiceCommands.ts) and the navigation of the two
    viewers.

    Part I holds the definitions, Part II the properties. *)

From stdpp Require Import gmap strings list.
From Stdlib Require Import Ascii Permutation.

Local Open Scope string_scope.
Local Open Scope list_scope.

(** * Part I: definitions *)

(** ** JavaScript string operations used by the sources *)

Module Js.

(** The double quote, the backslash and the line breaks, as characters. *)
Definition dquote : ascii := ascii_of_nat 34.
Definition backslash : ascii := ascii_of_nat 92.
Definition lineFeed : ascii := ascii_of_nat 10.
Definition formFeed : ascii := ascii_of_nat 12.
Definition carriageReturn : ascii := ascii_of_nat 13.
Definition nul : ascii := ascii_of_nat 0.
Definition slash : ascii := ascii_of_nat 47.
Definition colon : ascii := ascii_of_nat 58.

Definition quoted (s : string) : string :=
  String dquote s +:+ String dquote "".

(** [Array.prototype.join]. *)
Fixpoint join (sep : string) (l : list string) : string :=
  match l with
  | [] => ""
  | [x] => x
  | x :: rest => x +:+ sep +:+ join sep rest
  end.

(** [s.startsWith(p)], and the remainder of [s] behind the prefix. *)
Fixpoint stripPrefix (p s : string) : option string :=
  match p with
  | "" => Some s
  | String a p' =>
      match s with
      | "" => None
      | String b s' => if decide (a = b) then stripPrefix p' s' else None
      end
  end.

(** [s.includes(p)]. *)
Fixpoint includes (p s : string) : bool :=
  match stripPrefix p s with
  | Some _ => true
  | None => match s with
            | "" => false
            | String _ s' => includes p s'
            end
  end.

(** [s.replace(p, '')] with a string pattern: only the first occurrence
    of [p] is removed, wherever it is. *)
Fixpoint removeFirst (p s : string) : string :=
  match stripPrefix p s with
  | Some rest => rest
  | None => match s with
            | "" => ""
            | String c s' => String c (removeFirst p s')
            end
  end.

(** [s.split(c)] for a one-character separator: never empty. *)
Fixpoint split (c : ascii) (s : string) : list string :=
  match s with
  | "" => [""]
  | String a s' =>
      if decide (a = c) then "" :: split c s'
      else match split c s' with
           | [] => [String a ""]
           | seg :: segs => String a seg :: segs
           end
  end.

(** [arr.pop()] read as a value: the last element, [undefined] if none. *)
Definition pop (l : list string) : option string := last l.

(** Truthiness of [string | null]: [null] and the empty string are falsy. *)
Definition truthy (o : option string) : option string :=
  match o with
  | Some "" => None
  | _ => o
  end.

Fixpoint contains (c : ascii) (s : string) : bool :=
  match s with
  | "" => false
  | String a s' => if decide (a = c) then true else contains c s'
  end.

End Js.

(** ** Errors and results *)

(** What a rejected promise carries: an [Error] built by the importer with
    its message, or the [SyntaxError] a selector that does not parse makes
    [querySelector] throw. *)
Inductive Exn : Type :=
  | Error (message : string)
  | SyntaxError (selector : string).

Inductive Result (A : Type) : Type :=
  | Ok (a : A)
  | Throw (e : Exn).
Arguments Ok {A} a.
Arguments Throw {A} e.

Definition bindR {A B : Type} (r : Result A) (k : A -> Result B) : Result B :=
  match r with
  | Ok a => k a
  | Throw e => Throw e
  end.

Notation "x <-! r ; k" := (bindR r (fun x => k))
  (at level 100, r at next level, right associativity).

(** ** The document object model of an XML part

    [DOMParser.parseFromString(text, "application/xml")] is namespace
    aware: an element written [<p:sp>] has prefix [p] and local name [sp],
    an attribute written [r:id] has prefix [r] and local name [id]; a name
    written without colon has the empty prefix.  The two families of
    lookups the importer uses differ in the name they compare:
    [getElementsByTagName] and [getAttribute] compare qualified names
    (DOM), type and attribute selectors compare local names (Selectors).
    Comments and processing instructions are left out: none of the
    operations below observes them. *)

Module Dom.

Record Attr : Type := mkAttr {
  attrPrefix : string;
  attrLocalName : string;
  attrValue : string
}.

#[local] Unset Elimination Schemes.
Inductive Node : Type :=
  | Element (prefix localName : string)
            (attributes : list Attr) (childNodes : list Node)
  | Text (data : string).
#[local] Set Elimination Schemes.

(** Induction over a tree, with the property known for every child. *)
Fixpoint Node_ind (P : Node -> Prop)
    (HE : forall p l attrs kids, Forall P kids -> P (Element p l attrs kids))
    (HT : forall d, P (Text d)) (n : Node) : P n :=
  match n with
  | Element p l attrs kids =>
      HE p l attrs kids
         ((fix go (ks : list Node) : Forall P ks :=
             match ks with
             | [] => List.Forall_nil P
             | k :: ks' => List.Forall_cons P k ks' (Node_ind P HE HT k) (go ks')
             end) kids)
  | Text d => HT d
  end.

(** A document, given by its document element. *)
Record Document : Type := mkDocument { documentElement : Node }.

(** The qualified name: [prefix:localName], or the local name alone. *)
Definition qualified (prefix localName : string) : string :=
  match prefix with
  | "" => localName
  | _ => prefix +:+ String Js.colon localName
  end.

Definition qualifiedName (n : Node) : string :=
  match n with
  | Element p l _ _ => qualified p l
  | Text _ => "#text"
  end.

Definition localNameOf (n : Node) : string :=
  match n with
  | Element _ l _ _ => l
  | Text _ => ""
  end.

Definition attributesOf (n : Node) : list Attr :=
  match n with
  | Element _ _ attrs _ => attrs
  | Text _ => []
  end.

Definition isElement (n : Node) : bool :=
  match n with
  | Element _ _ _ _ => true
  | Text _ => false
  end.

(** [node.textContent]: the data of the text descendants, in tree order. *)
Fixpoint textContent (n : Node) : string :=
  match n with
  | Text d => d
  | Element _ _ _ kids =>
      (fix go (l : list Node) : string :=
         match l with
         | [] => ""
         | k :: l' => textContent k +:+ go l'
         end) kids
  end.

(** The elements of the subtree of [n] in tree order (preorder), [n]
    included when it is an element, each with its ancestors, nearest
    first; [ancs] are the ancestors of [n] itself. *)
Fixpoint inclusiveDescendants (ancs : list Node) (n : Node)
  : list (list Node * Node) :=
  match n with
  | Text _ => []
  | Element _ _ _ kids =>
      (ancs, n) ::
      (fix go (l : list Node) : list (list Node * Node) :=
         match l with
         | [] => []
         | k :: l' => (inclusiveDescendants (n :: ancs) k ++ go l')%list
         end) kids
  end.

(** The element descendants of [n], [n] excluded. *)
Definition descendants (ancs : list Node) (n : Node)
  : list (list Node * Node) :=
  match n with
  | Text _ => []
  | Element _ _ _ kids =>
      List.concat (map (inclusiveDescendants (n :: ancs)) kids)
  end.

(** [element.getAttribute(qualifiedName)]: the value of the first
    attribute with that qualified name, [null] when there is none. *)
Definition getAttribute (name : string) (n : Node) : option string :=
  attrValue <$>
    List.find (fun a => bool_decide (qualified (attrPrefix a) (attrLocalName a) = name))
              (attributesOf n).

(** [element.getElementsByTagName(qualifiedName)] in an XML document: the
    descendant elements whose qualified name is the argument, in tree
    order. *)
Definition getElementsByTagName (name : string) (n : Node) : list Node :=
  filter (fun e => qualifiedName e = name) (snd <$> descendants [] n).

(** [document.getElementsByTagName(qualifiedName)]: the document element
    is among the candidates. *)
Definition documentGetElementsByTagName (name : string) (d : Document)
  : list Node :=
  filter (fun e => qualifiedName e = name)
         (snd <$> inclusiveDescendants [] (documentElement d)).

(** *** Selectors

    The fragment of CSS selectors the importer writes: a list of complex
    selectors, each a chain of compound selectors joined by descendant
    combinators, each compound a type selector with attribute tests. *)

Inductive AttrTest : Type :=
  | AttrEquals (name value : string)      (* [name="value"]  *)
  | AttrIncludes (name value : string).   (* [name*="value"] *)

Record Compound : Type := mkCompound {
  typeName : string;
  attrTests : list AttrTest
}.

(** A complex selector, its compounds from right (the subject) to left. *)
Definition Complex : Type := list Compound.
Definition SelectorList : Type := list Complex.

(** An attribute selector without a namespace part applies to attributes
    in no namespace, that is to attributes written without a prefix. *)
Definition attrNoNamespace (name : string) (n : Node) : option string :=
  attrValue <$>
    List.find (fun a => bool_decide (attrPrefix a = "" /\ attrLocalName a = name))
              (attributesOf n).

Definition matchesAttrTest (n : Node) (t : AttrTest) : bool :=
  match t with
  | AttrEquals name v =>
      match attrNoNamespace name n with
      | Some w => bool_decide (w = v)
      | None => false
      end
  | AttrIncludes name v =>
      match attrNoNamespace name n with
      | Some w => negb (bool_decide (v = "")) && Js.includes v w
      | None => false
      end
  end.

(** A type selector written without namespace prefix stands for the
    elements with that local name, whatever their namespace and prefix. *)
Definition matchesCompound (c : Compound) (n : Node) : bool :=
  isElement n
  && bool_decide (localNameOf n = typeName c)
  && forallb (matchesAttrTest n) (attrTests c).

(** The compounds left of the subject, nearest first, against the
    ancestors, nearest first: each needs some ancestor further out. *)
Fixpoint matchesAncestors (cs : list Compound) (ancs : list Node) : bool :=
  match cs with
  | [] => true
  | c :: cs' =>
      (fix scan (l : list Node) : bool :=
         match l with
         | [] => false
         | a :: l' =>
             (matchesCompound c a && matchesAncestors cs' l') || scan l'
         end) ancs
  end.

Definition matchesComplex (sel : Complex) (ancs : list Node) (n : Node) : bool :=
  match sel with
  | [] => false
  | c :: cs => matchesCompound c n && matchesAncestors cs ancs
  end.

Definition matchesSelector (sel : SelectorList) (p : list Node * Node) : bool :=
  existsb (fun cx => matchesComplex cx (fst p) (snd p)) sel.

(** [document.querySelector(sel)]: the first element in tree order that
    matches, kept with its ancestors for [closest]. *)
Definition querySelector (sel : SelectorList) (d : Document)
  : option (list Node * Node) :=
  List.find (matchesSelector sel) (inclusiveDescendants [] (documentElement d)).

(** [element.closest(sel)] for a compound selector: the element itself or
    its nearest ancestor that matches. *)
Definition closest (c : Compound) (p : list Node * Node) : option Node :=
  List.find (matchesCompound c) (snd p :: fst p).

(** No local name of the tree holds a colon: what a namespace-aware
    reader builds, which splits every written name at its colon. *)
Fixpoint namespaceAware (n : Node) : bool :=
  match n with
  | Text _ => true
  | Element _ l _ kids =>
      negb (Js.contains Js.colon l)
      && (fix go (ks : list Node) : bool :=
            match ks with
            | [] => true
            | k :: ks' => namespaceAware k && go ks'
            end) kids
  end.

(** The same tree as a reader without namespaces builds it, the way
    the HTML parser does: every written name is kept whole, colon
    included, as a local name. *)
Fixpoint namespaceUnaware (n : Node) : Node :=
  match n with
  | Text d => Text d
  | Element p l attrs kids =>
      Element "" (qualified p l)
        (map (fun a => mkAttr "" (qualified (attrPrefix a) (attrLocalName a))
                              (attrValue a)) attrs)
        ((fix go (ks : list Node) : list Node :=
            match ks with
            | [] => []
            | k :: ks' => namespaceUnaware k :: go ks'
            end) kids)
  end.

End Dom.

(** ** [Promise.all]

    Every input promise has settled, fulfilled with a value or rejected;
    [order] lists the indices of the inputs in the order in which their
    reactions run.  A fulfilment stores its value in the slot of its own
    index and counts down; the first rejection rejects the result and the
    last fulfilment resolves it with the slots.  [None] is a result that
    stays pending. *)

Module Promise.
Section All.
Context {A : Type}.

Fixpoint settle (order : list nat) (promises : list (Result A))
    (values : list (option A)) (remaining : nat)
  : option (Result (list (option A))) :=
  match order with
  | [] => None
  | index :: order' =>
      match promises !! index, values !! index with
      | Some (Throw e), Some None => Some (Throw e)
      | Some (Ok x), Some None =>
          let values' := <[index := Some x]> values in
          match remaining with
          | 1 => Some (Ok values')
          | _ => settle order' promises values' (remaining - 1)
          end
      | _, _ => settle order' promises values remaining
      end
  end.

Definition all (order : list nat) (promises : list (Result A))
  : option (Result (list A)) :=
  match promises with
  | [] => Some (Ok [])
  | _ =>
      match settle order promises
              (replicate (length promises) None) (length promises) with
      | Some (Ok values) => Some (Ok (omap id values))
      | Some (Throw e) => Some (Throw e)
      | None => None
      end
  end.

(** The rejection that comes first in completion order. *)
Fixpoint firstRejection (order : list nat) (promises : list (Result A))
  : option Exn :=
  match order with
  | [] => None
  | index :: order' =>
      match promises !! index with
      | Some (Throw e) => Some e
      | _ => firstRejection order' promises
      end
  end.

(** The fulfilment values, in the order of the inputs. *)
Definition fulfilment (r : Result A) : option A :=
  match r with
  | Ok a => Some a
  | Throw _ => None
  end.

Definition fulfilled (promises : list (Result A)) : list A :=
  omap fulfilment promises.

End All.
End Promise.

(** ** The slide record (types.ts) *)

Record Slide : Type := mkSlide {
  title : string;
  content : list string;
  speakerNotes : string;
  imageUrl : option string
}.

#[global] Instance Slide_eq_dec : EqDecision Slide.
Proof. solve_decision. Defined.

(** ** The importer: [parsePptx] (src/App.tsx)

    The archive is the finite map from entry name to the document the XML
    reader yields for the text of the entry: [zip.file(name)] is a lookup, and
    the two awaited steps behind it ([async("string")], then
    [parseFromString]) read the entry without changing the archive. *)

Abbreviation Archive := (gmap string Dom.Document).

Module Importer.
Import Dom.

(** *** The selectors written in the source *)

Definition tag (name : string) : Compound := mkCompound name [].

(** [p\:spTree p\:sp p\:nvSpPr p\:nvPr p\:ph[type="v"]].  The backslash
    escapes the colon: [p\:ph] is the type selector of the name [p:ph],
    colon included, and that name is compared with local names. *)
Definition placeholderOfType (v : string) : Complex :=
  [ mkCompound "p:ph" [AttrEquals "type" v];
    tag "p:nvPr"; tag "p:nvSpPr"; tag "p:sp"; tag "p:spTree" ].

Definition titleSelector : SelectorList :=
  [ placeholderOfType "title"; placeholderOfType "ctrTitle" ].

Definition bodySelector : SelectorList := [ placeholderOfType "body" ].

Definition shapeSelector : Compound := tag "p:sp".

(** [Relationship[Type*="notesSlide"]] *)
Definition notesRelSelector : SelectorList :=
  [ [ mkCompound "Relationship" [AttrIncludes "Type" "notesSlide"] ] ].

(** The text [Relationship[Id="<rId>"]] built by the template literal. *)
Definition relationshipByIdText (rId : string) : string :=
  "Relationship[Id=" +:+ Js.quoted rId +:+ "]".

(** What that text is to a selector parser.  The identifier stands
    inside a CSS string, and the first character of it that is special
    there decides: with none, the whole identifier is the string compared
    with [Id]; a line break ends the string as a bad string, and the text
    is no selector; a double quote as last character closes the string,
    and the closing quote of the template opens a second string where the
    bracket should close: no selector either; any other case (a quote
    further inside, a backslash escape, a NUL) is outside this fragment. *)
Inductive IdKind : Type :=
  | IdPlain
  | IdInvalid
  | IdOther.

Fixpoint classifyId (rId : string) : IdKind :=
  match rId with
  | "" => IdPlain
  | String c rest =>
      if decide (c = Js.lineFeed \/ c = Js.carriageReturn \/ c = Js.formFeed)
      then IdInvalid
      else if decide (c = Js.dquote)
      then (if decide (rest = "") then IdInvalid else IdOther)
      else if decide (c = Js.backslash \/ c = Js.nul)
      then IdOther
      else classifyId rest
  end.

Section WithSelectorEngine.

(** [querySelector] on the texts of the last kind: whatever the
    selector engine of the browser does with them. *)
Variable otherSelector :
  string -> Document -> Result (option (list Node * Node)).

Definition querySelectorById (rId : string) (d : Document)
  : Result (option (list Node * Node)) :=
  match classifyId rId with
  | IdPlain =>
      Ok (querySelector [ [ mkCompound "Relationship" [AttrEquals "Id" rId] ] ] d)
  | IdInvalid => Throw (SyntaxError (relationshipByIdText rId))
  | IdOther => otherSelector (relationshipByIdText rId) d
  end.

(** [Array.from(sp.getElementsByTagName("a:t")).map(t => t.textContent).join("")] *)
Definition textRuns (n : Node) : string :=
  Js.join "" (textContent <$> getElementsByTagName "a:t" n).

Definition extractTitle (slideXml : Document) : string :=
  let titleShape := querySelector titleSelector slideXml in
  let titleSp := titleShape ≫= closest shapeSelector in
  match titleSp with
  | Some sp => textRuns sp
  | None => "Untitled Slide"
  end.

Definition extractContent (slideXml : Document) : list string :=
  let contentShape := querySelector bodySelector slideXml in
  let contentSp := contentShape ≫= closest shapeSelector in
  match contentSp with
  | Some sp => textRuns <$> getElementsByTagName "a:p" sp
  | None => []
  end.

(** [`ppt/slides/_rels/${slidePath.split('/').pop()}.rels`] *)
Definition slideRelsPath (slidePath : string) : string :=
  "ppt/slides/_rels/"
    +:+ default "undefined" (Js.pop (Js.split Js.slash slidePath))
    +:+ ".rels".

(** [`ppt/slides/${notesPath.replace('../', '')}`] *)
Definition notesFilePath (notesPath : string) : string :=
  "ppt/slides/" +:+ Js.removeFirst "../" notesPath.

Definition extractSpeakerNotes (zip : Archive) (slidePath : string) : string :=
  match zip !! slideRelsPath slidePath with
  | None => ""
  | Some slideRelsXml =>
      let notesRel := querySelector notesRelSelector slideRelsXml in
      match Js.truthy (notesRel ≫= (getAttribute "Target" ∘ snd)) with
      | None => ""
      | Some notesPath =>
          match zip !! notesFilePath notesPath with
          | None => ""
          | Some notesXml =>
              Js.join "" (textContent <$>
                documentGetElementsByTagName "a:t" notesXml)
          end
      end
  end.

(** The object literal [{ title, content, speakerNotes }]: no
    [imageUrl] property. *)
Definition extractSlide (zip : Archive) (slidePath : string)
    (slideXml : Document) : Slide :=
  {| title := extractTitle slideXml;
     content := extractContent slideXml;
     speakerNotes := extractSpeakerNotes zip slidePath;
     imageUrl := None |}.

Definition presentationPath : string := "ppt/presentation.xml".
Definition presentationRelsPath : string := "ppt/_rels/presentation.xml.rels".

(** The callback mapped over the slide references: one promise each. *)
Definition slideTask (zip : Archive) (slideIdNode : Node)
  : Result (option Slide) :=
  match Js.truthy (getAttribute "r:id" slideIdNode) with
  | None => Ok None
  | Some rId =>
      match zip !! presentationRelsPath with
      | None => Throw (Error "presentation.xml.rels not found")
      | Some presRelsXml =>
          slideRelNode <-! querySelectorById rId presRelsXml;
          match Js.truthy (slideRelNode ≫= (getAttribute "Target" ∘ snd)) with
          | None => Ok None
          | Some slidePath =>
              match zip !! ("ppt/" +:+ slidePath) with
              | None => Ok None
              | Some slideXml => Ok (Some (extractSlide zip slidePath slideXml))
              end
          end
      end
  end.

Definition slideIdNodes (presentationXml : Document) : list Node :=
  documentGetElementsByTagName "p:sldId" presentationXml.

(** [parsePptx]; [order] is the completion order of the slide tasks. *)
Definition parsePptx (order : list nat) (zip : Archive)
  : option (Result (list Slide)) :=
  match zip !! presentationPath with
  | None =>
      Some (Throw (Error "Invalid PPTX file: presentation.xml not found."))
  | Some presentationXml =>
      let slidePromises := slideTask zip <$> slideIdNodes presentationXml in
      match Promise.all order slidePromises with
      | None => None
      | Some (Throw e) => Some (Throw e)
      | Some (Ok results) =>
          let parsedSlides := omap id results in
          if decide (length parsedSlides = 0)
          then Some (Throw (Error "Could not find any slides in the PPTX file."))
          else Some (Ok parsedSlides)
      end
  end.

End WithSelectorEngine.
End Importer.

(** ** The view layer: edits, image generation, markdown export *)

Module Viewer.

(** [handleSave]: [{ ...slide, title: editedTitle, speakerNotes: editedNotes }]
    at the current index. *)
Definition handleSave (currentSlideIndex : nat) (editedTitle editedNotes : string)
    (slides : list Slide) : list Slide :=
  imap (fun index slide =>
          if decide (index = currentSlideIndex)
          then {| title := editedTitle;
                  content := content slide;
                  speakerNotes := editedNotes;
                  imageUrl := imageUrl slide |}
          else slide) slides.

(** [handleGenerateImage] (the same in both viewers): [{ ...slide, imageUrl }]
    at the current index once [generateImage] has fulfilled; a rejection
    leaves the slides as they are. *)
Definition handleGenerateImage (generated : Result string)
    (currentSlideIndex : nat) (slides : list Slide) : list Slide :=
  match generated with
  | Ok url =>
      imap (fun index slide =>
              if decide (index = currentSlideIndex)
              then {| title := title slide;
                      content := content slide;
                      speakerNotes := speakerNotes slide;
                      imageUrl := Some url |}
              else slide) slides
  | Throw _ => slides
  end.

Definition newline : string := String Js.lineFeed "".

(** The callback of [slides.map] inside [handleDownload]. *)
Definition slideMarkdown (slide : Slide) : string :=
  let title := "## " +:+ title slide in
  let content := Js.join newline ((fun point => "- " +:+ point) <$> content slide) in
  let speakerNotes := "### Speaker Notes" +:+ newline +:+ speakerNotes slide in
  title +:+ newline +:+ newline +:+ content
        +:+ newline +:+ newline +:+ speakerNotes.

(** [markdownContent] of [handleDownload]. *)
Definition markdownContent (slides : list Slide) : string :=
  Js.join (newline +:+ newline +:+ "---" +:+ newline +:+ newline)
          (slideMarkdown <$> slides).

End Viewer.

(** ** Notions the properties are stated with *)

Module Reading.
Import Dom Importer.

Definition noSlides : Exn :=
  Error "Could not find any slides in the PPTX file.".
Definition noManifest : Exn :=
  Error "Invalid PPTX file: presentation.xml not found.".
Definition noRelationships : Exn :=
  Error "presentation.xml.rels not found".


(** One field of the slides of an import that returned. *)
Definition fieldOf {A} (field : Slide -> A)
    (outcome : option (Result (list Slide))) : option (list A) :=
  match outcome with
  | Some (Ok slides) => Some (field <$> slides)
  | _ => None
  end.

(** The number of slide tasks of an import. *)
Definition taskCount (zip : Archive) : nat :=
  match zip !! presentationPath with
  | Some presentationXml => length (slideIdNodes presentationXml)
  | None => 0
  end.

(** *** The relationship index as a table

    The entries of a relationship index are its elements named
    [Relationship], in document order.  An entry stands under the value
    of its attribute [Id] and names the value of its attribute [Target];
    of two entries under one identifier the first counts. *)
Definition entries (index : Document) : list Node :=
  filter (fun n => localNameOf n = "Relationship")
         (snd <$> inclusiveDescendants [] (documentElement index)).

Definition entryUnder (index : Document) (rId : string) : option Node :=
  List.find (fun entry => bool_decide (attrNoNamespace "Id" entry = Some rId))
            (entries index).

(** The characters that are special inside the string of a selector:
    the double quote, the backslash, the three line breaks and NUL. *)
Definition special (c : ascii) : bool :=
  bool_decide (c ∈ [ Js.dquote; Js.backslash; Js.lineFeed;
                     Js.carriageReturn; Js.formFeed; Js.nul ]).

Fixpoint plain (rId : string) : bool :=
  match rId with
  | "" => true
  | String c rest => negb (special c) && plain rest
  end.


(** The reference [node] leads, through its identifier and the entry of
    the manifest relationship index under that identifier, to the slide
    part [slideXml] stored at [ppt/slidePath]. *)
Definition resolvesTo (zip : Archive) (node : Node)
    (slidePath : string) (slideXml : Document) : Prop :=
  exists rId presRelsXml entry,
    Js.truthy (getAttribute "r:id" node) = Some rId
    /\ zip !! presentationRelsPath = Some presRelsXml
    /\ entryUnder presRelsXml rId = Some entry
    /\ Js.truthy (getAttribute "Target" entry) = Some slidePath
    /\ zip !! ("ppt/" +:+ slidePath) = Some slideXml.

(** The three ways in which a reference leads nowhere: it has no
    relationship identifier (none, or an empty one), the index has no
    entry under its identifier, or the part its entry names is not in
    the archive. *)
Inductive Unresolvable (zip : Archive) (node : Node) : Prop :=
  | NoIdentifier :
      Js.truthy (getAttribute "r:id" node) = None ->
      Unresolvable zip node
  | NoEntry rId presRelsXml :
      Js.truthy (getAttribute "r:id" node) = Some rId ->
      zip !! presentationRelsPath = Some presRelsXml ->
      entryUnder presRelsXml rId = None ->
      Unresolvable zip node
  | NoPart rId presRelsXml entry slidePath :
      Js.truthy (getAttribute "r:id" node) = Some rId ->
      zip !! presentationRelsPath = Some presRelsXml ->
      entryUnder presRelsXml rId = Some entry ->
      Js.truthy (getAttribute "Target" entry) = Some slidePath ->
      zip !! ("ppt/" +:+ slidePath) = None ->
      Unresolvable zip node.

Section WithSelectorEngine.
Variable otherSelector :
  string -> Document -> Result (option (list Node * Node)).

(** The slides the tasks of [refs] yield, in the order of [refs]. *)
Definition slidesFrom (zip : Archive) (refs : list Node) : list Slide :=
  omap id (Promise.fulfilled (slideTask otherSelector zip <$> refs)).

(** Every selector built from an identifier of the manifest parses. *)
Definition selectorsParse (zip : Archive) : Prop :=
  forall presentationXml presRelsXml node rId,
    zip !! presentationPath = Some presentationXml ->
    node ∈ slideIdNodes presentationXml ->
    Js.truthy (getAttribute "r:id" node) = Some rId ->
    zip !! presentationRelsPath = Some presRelsXml ->
    exists found, querySelectorById otherSelector rId presRelsXml = Ok found.

End WithSelectorEngine.
End Reading.

(** ** The markdown export *)

Module MarkdownLayout.
Import Viewer.

(** The layout in the words of the specification: a heading, a bulleted
    list, a notes section; a horizontal rule between slides. *)
Definition heading (text : string) : string := "## " +:+ text.

Definition bullet (point : string) : string := "- " +:+ point.

Fixpoint bulletedList (points : list string) : string :=
  match points with
  | [] => ""
  | [point] => bullet point
  | point :: rest => bullet point +:+ newline +:+ bulletedList rest
  end.

Definition notesSection (notes : string) : string :=
  "### Speaker Notes" +:+ newline +:+ notes.

Definition blankLine : string := newline +:+ newline.

Definition horizontalRule : string := blankLine +:+ "---" +:+ blankLine.

Definition serializedSlide (slide : Slide) : string :=
  heading (title slide) +:+ blankLine
    +:+ bulletedList (content slide) +:+ blankLine
    +:+ notesSection (speakerNotes slide).

Fixpoint serializedDeck (first : Slide) (rest : list Slide) : string :=
  match rest with
  | [] => serializedSlide first
  | next :: rest' =>
      serializedSlide first +:+ horizontalRule +:+ serializedDeck next rest'
  end.

End MarkdownLayout.

(** ** Sample archives *)

Module Decks.
Import Dom Importer.

Definition attr (name value : string) : Attr := mkAttr "" name value.

(** [<p:sldId id="256" r:id="..."/>] *)
Definition sldId (rId : string) : Node :=
  Element "p" "sldId" [attr "id" "256"; mkAttr "r" "id" rId] [].


Definition presentation (refs : list Node) : Document :=
  mkDocument (Element "p" "presentation" [] [Element "p" "sldIdLst" [] refs]).

Definition relationship (id type target : string) : Node :=
  Element "" "Relationship"
          [attr "Id" id; attr "Type" type; attr "Target" target] [].

Definition relationships (entries : list Node) : Document :=
  mkDocument (Element "" "Relationships" [] entries).

Definition slideType : string :=
  "http://schemas.openxmlformats.org/officeDocument/2006/relationships/slide".
Definition notesSlideType : string :=
  "http://schemas.openxmlformats.org/officeDocument/2006/relationships/notesSlide".

(** [<a:r><a:t>text</a:t></a:r>] and [<a:p>] around runs. *)
Definition textRun (text : string) : Node :=
  Element "a" "r" [] [Element "a" "t" [] [Text text]].
Definition paragraph (runs : list string) : Node :=
  Element "a" "p" [] (textRun <$> runs).

(** A shape [<p:sp>] flagged with a placeholder role. *)
Definition placeholderShape (role : string) (paragraphs : list (list string)) : Node :=
  Element "p" "sp" []
    [ Element "p" "nvSpPr" []
        [ Element "p" "cNvPr" [attr "id" "2"] [];
          Element "p" "nvPr" [] [Element "p" "ph" [attr "type" role] []] ];
      Element "p" "txBody" [] (paragraph <$> paragraphs) ].

Definition slidePart (shapes : list Node) : Document :=
  mkDocument
    (Element "p" "sld" [] [Element "p" "cSld" [] [Element "p" "spTree" [] shapes]]).

Definition notesPart (runs : list string) : Document :=
  mkDocument
    (Element "p" "notes" []
       [Element "p" "cSld" []
          [Element "p" "spTree" []
             [Element "p" "sp" [] [Element "p" "txBody" [] [paragraph runs]]]]]).

(** A selector engine for the texts outside the fragment: never called
    on these archives. *)
Definition refuse (text : string) (d : Document)
  : Result (option (list Node * Node)) :=
  Throw (SyntaxError text).

Definition introTitle : Node := placeholderShape "title" [["Intro"; " to Rome"]].
Definition introBody : Node :=
  placeholderShape "body" [["Founded"; " in 753 BC"]; ["Seven hills"]].
Definition introSlide : Document := slidePart [introTitle; introBody].
Definition secondSlide : Document :=
  slidePart [placeholderShape "ctrTitle" [["The Republic"]]].
Definition thirdSlide : Document :=
  slidePart [placeholderShape "title" [["The Empire"]]].

Definition introNotes : Document := notesPart ["Welcome"; " everyone"].

Definition standardRels : Document :=
  relationships
    [ relationship "rId1" "slideMaster" "slideMasters/slideMaster1.xml";
      relationship "rId2" slideType "slides/slide1.xml";
      relationship "rId3" slideType "slides/slide2.xml";
      relationship "rId4" slideType "slides/slide3.xml" ].

Definition introSlideRels : Document :=
  relationships
    [ relationship "rId1" "slideLayout" "../slideLayouts/slideLayout1.xml";
      relationship "rId2" notesSlideType "../notesSlides/notesSlide1.xml" ].

(** A deck of three slides, the first with speaker notes, laid out as
    the format prescribes. *)
Definition standardDeck : Archive :=
  list_to_map
    [ ("ppt/presentation.xml", presentation [sldId "rId2"; sldId "rId3"; sldId "rId4"]);
      ("ppt/_rels/presentation.xml.rels", standardRels);
      ("ppt/slides/slide1.xml", introSlide);
      ("ppt/slides/slide2.xml", secondSlide);
      ("ppt/slides/slide3.xml", thirdSlide);
      ("ppt/slides/_rels/slide1.xml.rels", introSlideRels);
      ("ppt/notesSlides/notesSlide1.xml", introNotes) ].

(** A deck whose notes parts lie beside the slide parts, under targets
    without a parent-directory marker, one different note per slide. *)
Definition besideRels (target : string) : Document :=
  relationships [ relationship "rId1" notesSlideType target ].

Definition besideDeck : Archive :=
  list_to_map
    [ ("ppt/presentation.xml", presentation [sldId "rId2"; sldId "rId3"; sldId "rId4"]);
      ("ppt/_rels/presentation.xml.rels", standardRels);
      ("ppt/slides/slide1.xml", introSlide);
      ("ppt/slides/slide2.xml", secondSlide);
      ("ppt/slides/slide3.xml", thirdSlide);
      ("ppt/slides/_rels/slide1.xml.rels", besideRels "notes1.xml");
      ("ppt/slides/_rels/slide2.xml.rels", besideRels "notes2.xml");
      ("ppt/slides/_rels/slide3.xml.rels", besideRels "notes3.xml");
      ("ppt/slides/notes1.xml", notesPart ["First"]);
      ("ppt/slides/notes2.xml", notesPart ["Second"]);
      ("ppt/slides/notes3.xml", notesPart ["Third"]) ].




(** A manifest whose second reference has a double quote as identifier. *)
Definition quoteId : string := String Js.dquote "".
Definition quoteDeck : Archive :=
  <["ppt/presentation.xml" := presentation [sldId "rId2"; sldId quoteId]]>
    standardDeck.


(** A manifest whose only reference has the double quote as identifier,
    with an index that has an entry under it. *)
Definition quotedEntryDeck : Archive :=
  <["ppt/presentation.xml" := presentation [sldId quoteId]]>
    (<["ppt/_rels/presentation.xml.rels"
         := relationships [relationship quoteId slideType "slides/slide1.xml"]]>
       standardDeck).

(** [besideDeck] with a manifest whose only reference has an empty
    identifier. *)
Definition emptyIdDeck : Archive :=
  <["ppt/presentation.xml" := presentation [sldId ""]]> besideDeck.

(** The slides of [besideDeck], told apart by their notes. *)
Definition noted (notes : string) : Slide :=
  {| title := "Untitled Slide"; content := []; speakerNotes := notes;
     imageUrl := None |}.

End Decks.

(** ** The slide viewer: navigation and edit mode
       (src/components/SlideViewer.tsx) *)

Module SlideViewer.

(** [slides[index]] for an integer: [undefined] outside the array. *)
Definition item (slides : list Slide) (index : Z) : option Slide :=
  if decide (0 <= index)%Z then slides !! Z.to_nat index else None.

(** The updaters [goToPrevious] and [goToNext] give to
    [setCurrentSlideIndex]. *)
Definition goToPrevious (slides : list Slide) (prevIndex : Z) : Z :=
  if decide (prevIndex = 0)%Z
  then (Z.of_nat (length slides) - 1)%Z
  else (prevIndex - 1)%Z.

Definition goToNext (slides : list Slide) (prevIndex : Z) : Z :=
  if decide (prevIndex = Z.of_nat (length slides) - 1)%Z
  then 0%Z
  else (prevIndex + 1)%Z.

(** The state of the component, the two flags of the image generation
    reduced to the error the effect clears. *)
Record State : Type := mkState {
  currentSlideIndex : Z;
  isEditing : bool;
  editedTitle : string;
  editedNotes : string;
  imageError : option string
}.

Definition currentSlide (slides : list Slide) (st : State) : option Slide :=
  item slides (currentSlideIndex st).

(** The effect that runs when the index or the slides change. *)
Definition syncEffect (slides : list Slide) (st : State) : State :=
  match currentSlide slides st with
  | Some slide =>
      {| currentSlideIndex := currentSlideIndex st;
         isEditing := false;
         editedTitle := title slide;
         editedNotes := speakerNotes slide;
         imageError := None |}
  | None => st
  end.

Definition handleEdit (st : State) : State :=
  {| currentSlideIndex := currentSlideIndex st;
     isEditing := true;
     editedTitle := editedTitle st;
     editedNotes := editedNotes st;
     imageError := imageError st |}.

(** The [onChange] handlers of the two editors. *)
Definition setEditedTitle (value : string) (st : State) : State :=
  {| currentSlideIndex := currentSlideIndex st;
     isEditing := isEditing st;
     editedTitle := value;
     editedNotes := editedNotes st;
     imageError := imageError st |}.

Definition setEditedNotes (value : string) (st : State) : State :=
  {| currentSlideIndex := currentSlideIndex st;
     isEditing := isEditing st;
     editedTitle := editedTitle st;
     editedNotes := value;
     imageError := imageError st |}.

(** [handleCancel] reads [currentSlide.title]: without current slide it
    throws, which is [None] here. *)
Definition handleCancel (slides : list Slide) (st : State) : option State :=
  match currentSlide slides st with
  | Some slide =>
      Some {| currentSlideIndex := currentSlideIndex st;
              isEditing := false;
              editedTitle := title slide;
              editedNotes := speakerNotes slide;
              imageError := imageError st |}
  | None => None
  end.

(** [handleSave]: the slides handed to [onSlidesChange], and the state.
    No index of the array equals a negative number. *)
Definition handleSave (slides : list Slide) (st : State) : list Slide * State :=
  (if decide (0 <= currentSlideIndex st)%Z
   then Viewer.handleSave (Z.to_nat (currentSlideIndex st))
                          (editedTitle st) (editedNotes st) slides
   else slides,
   {| currentSlideIndex := currentSlideIndex st;
      isEditing := false;
      editedTitle := editedTitle st;
      editedNotes := editedNotes st;
      imageError := imageError st |}).

End SlideViewer.

(** ** The content generator (src/services/geminiService.ts)

    The remote calls are inputs: the outcome of [generateContent] with the
    [text] of the response ([None]: no text), the outcome of
    [generateImages] with its [generatedImages]. *)

Module Gemini.

Definition generationFailed : Exn :=
  Error "Failed to generate presentation slides. The AI model may be temporarily unavailable or the topic could not be processed.".

Definition imageFailed : Exn :=
  Error "Failed to generate image. The model may be unavailable or the prompt was rejected.".

(** A [TypeError], for a property read off [undefined]; every one below
    is caught before its message matters. *)
Definition typeError : Exn := Error "TypeError".

(** What [JSON.parse] returns, as far as the service looks at it: an
    array, taken for an array of slides by the cast [as Slide[]], or
    some other value. *)
Inductive Parsed : Type :=
  | SlideArray (items : list Slide)
  | NotAnArray.

(** An element of [generatedImages]: its [image], and the [imageBytes]
    of that; either can be missing. *)
Record GeneratedImage : Type := mkGeneratedImage {
  image : option (option string)
}.

Section Service.

(** [String.prototype.trim] and [JSON.parse]. *)
Variable trim : string -> string.
Variable jsonParse : string -> Result Parsed.

(** The body of the [try] of [generateSlidesContent]. *)
Definition slidesBody (response : Result (option string)) : Result (list Slide) :=
  text <-! response;
  match text with
  | None => Throw typeError
  | Some text =>
      let jsonText := trim text in
      slidesData <-! jsonParse jsonText;
      match slidesData with
      | SlideArray ((_ :: _) as items) => Ok items
      | _ => Throw (Error "AI returned an invalid or empty slide structure.")
      end
  end.

(** [generateSlidesContent]: whatever the body throws is logged and
    replaced. *)
Definition generateSlidesContent (response : Result (option string))
  : Result (list Slide) :=
  match slidesBody response with
  | Ok slides => Ok slides
  | Throw _ => Throw generationFailed
  end.

(** The body of the [try] of [generateImage]; a template literal prints
    a missing [imageBytes] as [undefined]. *)
Definition imageBody (response : Result (option (list GeneratedImage)))
  : Result string :=
  generatedImages <-! response;
  match generatedImages with
  | Some (first :: _) =>
      match image first with
      | Some imageBytes =>
          Ok ("data:image/jpeg;base64," +:+ default "undefined" imageBytes)
      | None => Throw typeError
      end
  | _ => Throw (Error "No image was generated.")
  end.

Definition generateImage (response : Result (option (list GeneratedImage)))
  : Result string :=
  match imageBody response with
  | Ok url => Ok url
  | Throw _ => Throw imageFailed
  end.

End Service.
End Gemini.

(** ** The application shell (src/App.tsx) *)

Module App.

Inductive ViewMode : Type := EDITOR | PLAYER.

Record State : Type := mkState {
  topic : string;
  slides : list Slide;
  isLoading : bool;
  loadingMessage : string;
  error : option string;
  viewMode : ViewMode
}.

(** What [renderContent] returns: the loader, the error box, one of the
    two viewers with the slides it is given, or the invitation. *)
Inductive Content : Type :=
  | Loader (message : string)
  | ErrorBox (message : string)
  | VideoPlayerView (slides : list Slide)
  | SlideViewerView (slides : list Slide)
  | Invitation.

Definition initial : State :=
  {| topic := ""; slides := []; isLoading := false; loadingMessage := "";
     error := None; viewMode := EDITOR |}.

Definition renderContent (st : State) : Content :=
  if isLoading st then Loader (loadingMessage st)
  else match Js.truthy (error st) with
       | Some message => ErrorBox message
       | None =>
           if decide (0 < length (slides st))
           then match viewMode st with
                | PLAYER => VideoPlayerView (slides st)
                | EDITOR => SlideViewerView (slides st)
                end
           else Invitation
       end.

(** [onPlayVideo] and [onClose] of the viewers, [onSlidesChange] of both. *)
Definition setViewMode (mode : ViewMode) (st : State) : State :=
  {| topic := topic st; slides := slides st; isLoading := isLoading st;
     loadingMessage := loadingMessage st; error := error st;
     viewMode := mode |}.

Definition setSlides (newSlides : list Slide) (st : State) : State :=
  {| topic := topic st; slides := newSlides; isLoading := isLoading st;
     loadingMessage := loadingMessage st; error := error st;
     viewMode := viewMode st |}.

Section Handlers.

(** [String.prototype.trim], and the message of the [DOMException] a
    selector text that is no selector raises. *)
Variable trim : string -> string.
Variable domExceptionMessage : string -> string.

(** [err.message]: every exception here is an instance of [Error]. *)
Definition messageOf (e : Exn) : string :=
  match e with
  | Error message => message
  | SyntaxError selector => domExceptionMessage selector
  end.

(** The state while the work of a handler is awaited. *)
Definition loading (message newTopic : string) (st : State) : State :=
  {| topic := newTopic; slides := []; isLoading := true;
     loadingMessage := message; error := None; viewMode := viewMode st |}.

(** The [try], [catch] and [finally] around the awaited work. *)
Definition settled (outcome : Result (list Slide)) (st : State) : State :=
  match outcome with
  | Ok newSlides =>
      {| topic := topic st; slides := newSlides; isLoading := false;
         loadingMessage := loadingMessage st; error := error st;
         viewMode := viewMode st |}
  | Throw e =>
      {| topic := topic st; slides := slides st; isLoading := false;
         loadingMessage := loadingMessage st; error := Some (messageOf e);
         viewMode := viewMode st |}
  end.

(** [handleGenerateSlides], [generated] being the outcome of
    [generateSlidesContent(newTopic)]. *)
Definition handleGenerateSlides (newTopic : string)
    (generated : Result (list Slide)) (st : State) : State :=
  if decide (trim newTopic = "")
  then {| topic := topic st; slides := slides st; isLoading := isLoading st;
          loadingMessage := loadingMessage st;
          error := Some "Please enter a topic."; viewMode := viewMode st |}
  else settled generated
         (loading "Generating your presentation... This may take a moment."
                  newTopic st).

(** [handleImportSlides], [parsed] being the outcome of [parsePptx(file)]. *)
Definition handleImportSlides (fileName : string)
    (parsed : Result (list Slide)) (st : State) : State :=
  settled parsed
    (loading "Parsing your .pptx file..." ("Imported from " +:+ fileName) st).

End Handlers.
End App.

(** ** The own properties of an object

    An object with string keys is given by its properties in the order
    of their creation, which for an object literal is the order in which
    they are written; the keys are distinct.  [Object.keys] lists the
    keys that are array indices first, in ascending numeric order, and
    then the other keys in the order of creation. *)

Module JsObject.

Local Open Scope N_scope.

Definition digit (c : ascii) : option N :=
  let code := N_of_ascii c in
  if (48 <=? code) && (code <=? 57) then Some (code - 48) else None.

Fixpoint decimal (value : N) (s : string) : option N :=
  match s with
  | "" => Some value
  | String c rest =>
      match digit c with
      | Some d => decimal (10 * value + d) rest
      | None => None
      end
  end.

(** An array index: the decimal numeral, without leading zero, of an
    integer from 0 to 2^32 - 2. *)
Definition arrayIndex (key : string) : option N :=
  match key with
  | "" => None
  | String c rest =>
      if decide (c = "0"%char /\ rest <> "") then None
      else match decimal 0 key with
           | Some value => if value <? 2 ^ 32 - 1 then Some value else None
           | None => None
           end
  end.

Section Properties.
Context {A : Type}.

Definition indexOf (property : string * A) : N :=
  default 0 (arrayIndex property.1).

Fixpoint insert (property : string * A) (sorted : list (string * A))
  : list (string * A) :=
  match sorted with
  | [] => [property]
  | next :: rest =>
      if indexOf property <? indexOf next
      then property :: sorted
      else next :: insert property rest
  end.

Definition ascending (properties : list (string * A)) : list (string * A) :=
  foldr insert [] properties.

(** The properties in the order of [Object.keys], each key with the
    value stored under it. *)
Definition ownProperties (properties : list (string * A))
  : list (string * A) :=
  ascending (filter (fun property => is_Some (arrayIndex property.1)) properties)
  ++ filter (fun property => arrayIndex property.1 = None) properties.

End Properties.
End JsObject.

(** ** Voice commands (src/hooks/useVoiceCommands.ts) *)

Module Voice.

(** An element of [event.results]: its [isFinal], and the [transcript]
    of its first alternative. *)
Record SpeechResult : Type := mkSpeechResult {
  isFinal : bool;
  transcript : string
}.

(** The loop [for (let i = event.resultIndex; i < event.results.length; ++i)]
    of [processResult], [fuel] bounding its rounds. *)
Fixpoint collect (fuel i : nat) (results : list SpeechResult)
    (finalTranscript : string) : string :=
  match fuel with
  | 0 => finalTranscript
  | S fuel' =>
      match results !! i with
      | None => finalTranscript
      | Some result =>
          collect fuel' (S i) results
            (if isFinal result
             then finalTranscript +:+ transcript result
             else finalTranscript)
      end
  end.

Definition finalTranscript (resultIndex : nat) (results : list SpeechResult)
  : string :=
  collect (length results) resultIndex results "".

Section Commands.
Context {A : Type}.

(** [finalTranscript.trim().toLowerCase()]. *)
Variable normalise : string -> string.

(** The loop [for (const key of commandKeys)], which stops at the first
    key the transcript includes: the key and [commands[key]]. *)
Fixpoint firstIncluded (commandKeys : list (string * A))
    (processedTranscript : string) : option (string * A) :=
  match commandKeys with
  | [] => None
  | (key, command) :: rest =>
      if Js.includes key processedTranscript
      then Some (key, command)
      else firstIncluded rest processedTranscript
  end.

(** The search for a command: the loop over [Object.keys(commands)]. *)
Definition firstMatch (commands : list (string * A)) (processedTranscript : string)
  : option (string * A) :=
  firstIncluded (JsObject.ownProperties commands) processedTranscript.

(** [processResult]: the transcript it stores and the command it runs. *)
Definition processResult (commands : list (string * A))
    (resultIndex : nat) (results : list SpeechResult)
  : string * option (string * A) :=
  let processedTranscript := normalise (finalTranscript resultIndex results) in
  (processedTranscript, firstMatch commands processedTranscript).

End Commands.
End Voice.

(** ** The player (src/components/VideoPlayer.tsx)

    The state the navigation reads and writes; the transition settings
    and the background are left out, no handler below touches them, and
    the slides stay the ones the player was opened with: the image
    generation of the player, which hands new slides to the
    application, is not among the events below. *)

Module VideoPlayer.

Inductive AnimationState : Type := idle | exiting | entering.

Record State : Type := mkState {
  currentSlideIndex : Z;
  isPlaying : bool;
  isFinished : bool;
  isSettingsOpen : bool;
  animationState : AnimationState;
  slideContent : option Slide;
  isGeneratingImage : bool;
  imageError : option string
}.

Definition isTransitioning (st : State) : bool :=
  match animationState st with
  | idle => false
  | _ => true
  end.

(** The callbacks [setTimeout] holds: the outer one of
    [handleSlideChange] with the index it was asked for, and the inner
    one. *)
Inductive Timer : Type :=
  | ExitTimer (nextIndex : Z)
  | EnterTimer.

(** The state the component starts with. *)
Definition initial (slides : list Slide) : State :=
  {| currentSlideIndex := 0;
     isPlaying := true;
     isFinished := false;
     isSettingsOpen := false;
     animationState := idle;
     slideContent := SlideViewer.item slides 0;
     isGeneratingImage := false;
     imageError := None |}.

(** [handleSlideChange(nextIndex)]; [captured] is the state of the render
    the callback was made in, which its guard reads. *)
Definition handleSlideChange (slides : list Slide) (captured : State)
    (nextIndex : Z) (st : State) : State * option Timer :=
  if isTransitioning captured
     || bool_decide (nextIndex < 0)%Z
     || bool_decide (nextIndex >= Z.of_nat (length slides))%Z
  then (st, None)
  else ({| currentSlideIndex := currentSlideIndex st;
           isPlaying := isPlaying st;
           isFinished := isFinished st;
           isSettingsOpen := isSettingsOpen st;
           animationState := exiting;
           slideContent := slideContent st;
           isGeneratingImage := isGeneratingImage st;
           imageError := None |},
        Some (ExitTimer nextIndex)).

(** A timer fires. *)
Definition fire (slides : list Slide) (timer : Timer) (st : State)
  : State * option Timer :=
  match timer with
  | ExitTimer nextIndex =>
      ({| currentSlideIndex := nextIndex;
          isPlaying := isPlaying st;
          isFinished := isFinished st;
          isSettingsOpen := isSettingsOpen st;
          animationState := entering;
          slideContent := SlideViewer.item slides nextIndex;
          isGeneratingImage := isGeneratingImage st;
          imageError := imageError st |},
       Some EnterTimer)
  | EnterTimer =>
      ({| currentSlideIndex := currentSlideIndex st;
          isPlaying := isPlaying st;
          isFinished := isFinished st;
          isSettingsOpen := isSettingsOpen st;
          animationState := idle;
          slideContent := slideContent st;
          isGeneratingImage := isGeneratingImage st;
          imageError := imageError st |},
       None)
  end.

(** [advanceSlide], with the index of the render it was made in. *)
Definition advanceSlide (slides : list Slide) (captured : State) (st : State)
  : State * option Timer :=
  if bool_decide (currentSlideIndex captured < Z.of_nat (length slides) - 1)%Z
  then handleSlideChange slides captured (currentSlideIndex captured + 1) st
  else ({| currentSlideIndex := currentSlideIndex st;
           isPlaying := false;
           isFinished := true;
           isSettingsOpen := isSettingsOpen st;
           animationState := animationState st;
           slideContent := slideContent st;
           isGeneratingImage := isGeneratingImage st;
           imageError := imageError st |},
        None).

Definition handleReplay (slides : list Slide) (st : State) : State :=
  {| currentSlideIndex := 0;
     isPlaying := true;
     isFinished := false;
     isSettingsOpen := isSettingsOpen st;
     animationState := idle;
     slideContent := SlideViewer.item slides 0;
     isGeneratingImage := isGeneratingImage st;
     imageError := imageError st |}.

Definition setIsPlaying (value : bool) (st : State) : State :=
  {| currentSlideIndex := currentSlideIndex st;
     isPlaying := value;
     isFinished := isFinished st;
     isSettingsOpen := isSettingsOpen st;
     animationState := animationState st;
     slideContent := slideContent st;
     isGeneratingImage := isGeneratingImage st;
     imageError := imageError st |}.

Definition setIsSettingsOpen (value : bool) (st : State) : State :=
  {| currentSlideIndex := currentSlideIndex st;
     isPlaying := isPlaying st;
     isFinished := isFinished st;
     isSettingsOpen := value;
     animationState := animationState st;
     slideContent := slideContent st;
     isGeneratingImage := isGeneratingImage st;
     imageError := imageError st |}.

(** [handlePlayPause], with the flag of the render it was made in. *)
Definition handlePlayPause (captured : State) (st : State) : State :=
  setIsPlaying (negb (isPlaying captured)) st.

(** The condition under which the narration effect speaks the notes of
    the slide and listens for the end of the utterance. *)
Definition narrating (st : State) : bool :=
  isPlaying st
  && negb (isTransitioning st)
  && bool_decide (is_Some (slideContent st))
  && negb (isFinished st)
  && negb (isGeneratingImage st).

(** *** The command table *)

(** What the entries of [commands] do. *)
Inductive Command : Type :=
  | SetIsPlaying (value : bool)
  | HandleStop
  | SlideChange (delta : Z)
  | SetIsSettingsOpen (value : bool)
  | ReplayIfFinished.

Definition commands : list (string * Command) :=
  [ ("play", SetIsPlaying true);
    ("start", SetIsPlaying true);
    ("pause", SetIsPlaying false);
    ("hold", SetIsPlaying false);
    ("stop", HandleStop);
    ("end", HandleStop);
    ("next", SlideChange 1);
    ("next slide", SlideChange 1);
    ("previous", SlideChange (-1));
    ("back", SlideChange (-1));
    ("previous slide", SlideChange (-1));
    ("open settings", SetIsSettingsOpen true);
    ("show settings", SetIsSettingsOpen true);
    ("close settings", SetIsSettingsOpen false);
    ("hide settings", SetIsSettingsOpen false);
    ("replay", ReplayIfFinished);
    ("restart", ReplayIfFinished) ].

(** A command runs, made in the render of [captured]; [handleStop]
    closes the player and leaves its state alone. *)
Definition run (slides : list Slide) (captured : State) (command : Command)
    (st : State) : State * option Timer :=
  match command with
  | SetIsPlaying value => (setIsPlaying value st, None)
  | HandleStop => (st, None)
  | SlideChange delta =>
      handleSlideChange slides captured (currentSlideIndex captured + delta) st
  | SetIsSettingsOpen value => (setIsSettingsOpen value st, None)
  | ReplayIfFinished =>
      (if isFinished captured then handleReplay slides st else st, None)
  end.

(** *** The player with its pending timers *)

Record World : Type := mkWorld {
  state : State;
  timers : list Timer
}.

(** What happens to the player: the recognition delivers a transcript
    to the commands made in the render of [captured]; the utterance
    ends, heard while the narration effect listens; the play button is
    pressed, which the finished screen does not show and a transition
    disables; the replay button of the finished screen is pressed; the
    pending timer at a position fires. *)
Inductive Event : Type :=
  | Heard (captured : State) (processedTranscript : string)
  | UtteranceEnded
  | PlayPausePressed
  | ReplayPressed
  | TimerFired (position : nat).

Definition schedule (timers : list Timer) (result : State * option Timer) : World :=
  {| state := fst result;
     timers := timers ++ match snd result with
                         | Some timer => [timer]
                         | None => []
                         end |}.

Definition step (slides : list Slide) (w : World) (e : Event) : World :=
  match e with
  | Heard captured processedTranscript =>
      match Voice.firstMatch commands processedTranscript with
      | Some (_, command) =>
          schedule (timers w) (run slides captured command (state w))
      | None => w
      end
  | UtteranceEnded =>
      if narrating (state w)
      then schedule (timers w) (advanceSlide slides (state w) (state w))
      else w
  | PlayPausePressed =>
      if isFinished (state w) || isTransitioning (state w) then w
      else schedule (timers w) (handlePlayPause (state w) (state w), None)
  | ReplayPressed =>
      if isFinished (state w)
      then schedule (timers w) (handleReplay slides (state w), None)
      else w
  | TimerFired position =>
      match timers w !! position with
      | Some timer =>
          schedule (delete position (timers w)) (fire slides timer (state w))
      | None => w
      end
  end.

Definition start (slides : list Slide) : World :=
  {| state := initial slides; timers := [] |}.

Definition run_events (slides : list Slide) (events : list Event) : World :=
  foldl (step slides) (start slides) events.

End VideoPlayer.

(** ** Notions on the runs of the player *)

Module Playback.
Import VideoPlayer.

(** *** Uninterrupted play *)

(** What happens between two slides when nobody touches the player:
    the utterance ends, the outer timer fires, the inner timer fires. *)
Definition narration : list Event :=
  [UtteranceEnded; TimerFired 0; TimerFired 0].

Definition autoplay (count : nat) : list Event :=
  List.concat (replicate count narration).

(** The player while it speaks the notes of the slide at [index], no
    timer pending. *)
Definition speaking (slides : list Slide) (index : nat) : World :=
  {| state := {| currentSlideIndex := Z.of_nat index;
                 isPlaying := true;
                 isFinished := false;
                 isSettingsOpen := false;
                 animationState := idle;
                 slideContent := slides !! index;
                 isGeneratingImage := false;
                 imageError := None |};
     timers := [] |}.

(** *** What the timers are asked for *)

Definition inDeck (slides : list Slide) (index : Z) : Prop :=
  (0 <= index < Z.of_nat (length slides))%Z.

Definition timerInDeck (slides : list Slide) (timer : Timer) : Prop :=
  match timer with
  | ExitTimer nextIndex => inDeck slides nextIndex
  | EnterTimer => True
  end.

(** The player shows the slide at its index, which is one of the deck,
    and so is every index a pending timer will set. *)
Definition consistent (slides : list Slide) (w : World) : Prop :=
  inDeck slides (currentSlideIndex (state w))
  /\ slideContent (state w)
     = SlideViewer.item slides (currentSlideIndex (state w))
  /\ Forall (timerInDeck slides) (timers w).

End Playback.

(** ** A session of the view layer on a deck *)

Module Session.

(** The two ways in which the viewers hand new slides to
    [onSlidesChange]: a saved edit, and an image generation with the
    response of the image service. *)
Inductive Action : Type :=
  | Save (currentSlideIndex : nat) (editedTitle editedNotes : string)
  | GenerateImage (currentSlideIndex : nat)
                  (response : Result (option (list Gemini.GeneratedImage))).

Definition apply (slides : list Slide) (action : Action) : list Slide :=
  match action with
  | Save index editedTitle editedNotes =>
      Viewer.handleSave index editedTitle editedNotes slides
  | GenerateImage index response =>
      Viewer.handleGenerateImage (Gemini.generateImage response) index slides
  end.

Definition replay (slides : list Slide) (actions : list Action) : list Slide :=
  foldl apply slides actions.


(** An image address as [generateImage] builds it. *)
Definition isJpegDataUrl (url : string) : Prop :=
  exists imageBytes, url = "data:image/jpeg;base64," +:+ imageBytes.

(** A slide carries no image, or one whose address the image service
    built. *)
Definition imageIsGenerated (slide : Slide) : Prop :=
  match imageUrl slide with
  | Some url => isJpegDataUrl url
  | None => True
  end.

End Session.

(** ** Further notions on manifests *)

Module Manifest.
Import Dom Importer.

(** The reference carries a relationship identifier that is not empty. *)
Definition hasIdentifier (node : Node) : bool :=
  bool_decide (is_Some (Js.truthy (getAttribute "r:id" node))).

(** No identifier of the manifest holds a character that is special
    inside the string of a selector. *)
Definition plainIdentifiers (zip : Archive) : Prop :=
  forall presentationXml node rId,
    zip !! presentationPath = Some presentationXml ->
    node ∈ slideIdNodes presentationXml ->
    Js.truthy (getAttribute "r:id" node) = Some rId ->
    classifyId rId = IdPlain.

End Manifest.

(** ** Sample inputs of the view layer *)

Module Samples.
Import Decks.

(** The slides [parsePptx] returns for [besideDeck]. *)
Definition lecture : list Slide := [noted "First"; noted "Second"; noted "Third"].

(** [besideDeck] without its manifest relationship index. *)
Definition unindexedDeck : Archive :=
  delete Importer.presentationRelsPath besideDeck.

(** The message of the exception for a selector text that is no
    selector. *)
Definition domExceptionMessage (selector : string) : string :=
  "Failed to execute 'querySelector' on 'Document': '" +:+ selector
  +:+ "' is not a valid selector.".

(** A response of the image service with one image. *)
Definition oneImage (imageBytes : string)
  : Result (option (list Gemini.GeneratedImage)) :=
  Ok (Some [Gemini.mkGeneratedImage (Some (Some imageBytes))]).

(** A command table in which the second key contains the first. *)
Definition table : list (string * nat) :=
  [("stop", 1); ("next", 2); ("stop talking", 3)].

(** A command table with keys that are array indices ([7] and [101])
    and one that is not ([01]). *)
Definition numbered : list (string * nat) :=
  [("01", 1); ("101", 2); ("7", 3)].

(** The player of a single slide after its only utterance has ended. *)
Definition finishedPlayer : VideoPlayer.World :=
  VideoPlayer.run_events [noted "First"] [VideoPlayer.UtteranceEnded].

End Samples.

(** * Part II: properties *)

(** ** String operations *)

Module JsFacts.
Import Js.

Lemma stripPrefix_app p s : stripPrefix p (p +:+ s) = Some s.
Proof.
  induction p as [|a p IH]; [done|].
  change (stripPrefix (String a p) (String a p +:+ s))
    with (if decide (a = a) then stripPrefix p (p +:+ s) else None).
  by rewrite decide_True.
Qed.

Lemma removeFirst_unfold p s :
  removeFirst p s
  = match stripPrefix p s with
    | Some rest => rest
    | None => match s with
              | "" => ""
              | String c s' => String c (removeFirst p s')
              end
    end.
Proof. by destruct s. Qed.

(** A pattern at the very start of the string is the one removed. *)
Lemma removeFirst_prefix p s : removeFirst p (p +:+ s) = s.
Proof. by rewrite removeFirst_unfold, stripPrefix_app. Qed.

(** A string without the pattern is left as it is. *)
Lemma removeFirst_absent p s : includes p s = false -> removeFirst p s = s.
Proof.
  induction s as [|c s IH]; cbn.
  - by destruct (stripPrefix p "").
  - destruct (stripPrefix p (String c s)); [done|].
    intros H. by rewrite IH.
Qed.

Example split_slide_path :
  split slash "slides/slide1.xml" = ["slides"; "slide1.xml"].
Proof. reflexivity. Qed.

Example split_keeps_empty_segments :
  split slash "a//b/" = ["a"; ""; "b"; ""] /\ split slash "" = [""].
Proof. split; reflexivity. Qed.

Example removeFirst_removes_one_marker :
  removeFirst "../" "../../notes.xml" = "../notes.xml"
  /\ removeFirst "../" "a/../notes.xml" = "a/notes.xml".
Proof. split; reflexivity. Qed.

End JsFacts.

(** ** [Promise.all] collects by source position *)

Module PromiseFacts.
Import Promise.
Section All.
Context {A : Type}.
Implicit Types (promises : list (Result A)) (order : list nat).

Lemma omap_id_fulfilment promises :
  omap id (fulfilment <$> promises) = fulfilled promises.
Proof.
  unfold fulfilled. induction promises as [|r rs IH]; [done|].
  cbn. rewrite IH. by destruct r.
Qed.


(** The loop invariant of the reactions: the slots of the inputs still
    to settle are empty, the others hold the value of their input. *)
Lemma settle_spec promises order values :
  NoDup order ->
  length values = length promises ->
  (forall i, i ∈ order -> i < length promises /\ values !! i = Some None) ->
  (forall i, i < length promises -> i ∉ order ->
     exists x, promises !! i = Some (Ok x) /\ values !! i = Some (Some x)) ->
  order <> [] ->
  settle order promises values (length order)
  = Some match firstRejection order promises with
         | Some e => Throw e
         | None => Ok (fulfilment <$> promises)
         end.
Proof.
  revert values.
  induction order as [|i order' IH]; intros values Hnd Hlen Hin Hout Hne;
    [done|].
  apply NoDup_cons in Hnd as [Hi Hnd].
  destruct (Hin i) as [Hlt Hslot]; [apply elem_of_cons; by left|].
  destruct (lookup_lt_is_Some_2 promises i Hlt) as [r Hr].
  cbn [settle firstRejection]. rewrite Hr, Hslot.
  destruct r as [x|e]; [|done].
  assert (Hfilled : forall j, j < length promises -> j ∉ order' ->
            exists y, promises !! j = Some (Ok y)
                      /\ <[i:=Some x]> values !! j = Some (Some y)).
  { intros j Hj Hnotin. destruct (decide (j = i)) as [->|Hji].
    - exists x. split; [done|].
      apply list_lookup_insert_eq. by rewrite Hlen.
    - destruct (Hout j Hj) as (y & ? & ?);
        [intros [?|?]%elem_of_cons; done|].
      exists y. by rewrite list_lookup_insert_ne. }
  destruct order' as [|i' order''].
  - cbn. do 2 f_equal. apply list_eq. intros j.
    rewrite list_lookup_fmap.
    destruct (decide (j < length promises)) as [Hj|Hj].
    + destruct (Hfilled j Hj) as (y & -> & ->); [apply not_elem_of_nil|].
      done.
    + rewrite !lookup_ge_None_2; [done| |]; [lia|].
      rewrite length_insert. lia.
  - change (length (i :: i' :: order'')) with (S (S (length order''))).
    cbn [Nat.sub].
    change (S (length order'')) with (length (i' :: order'')).
    apply IH; [done| |..|done|done].
    + by rewrite length_insert.
    + intros j Hj. destruct (Hin j) as [? ?]; [apply elem_of_cons; by right|].
      split; [done|]. rewrite list_lookup_insert_ne; [done|].
      intros ->. done.
Qed.

(** For a completion order that settles every input once, [all]
    settles: it rejects with the first rejection in completion order,
    and otherwise resolves with the values in the order of the inputs,
    whatever the completion order was. *)
Lemma all_spec promises order :
  Permutation order (seq 0 (length promises)) ->
  all order promises
  = Some match firstRejection order promises with
         | Some e => Throw e
         | None => Ok (fulfilled promises)
         end.
Proof.
  intros Hperm. unfold all.
  destruct promises as [|r rs] eqn:Hps.
  - apply Permutation_nil_r in Hperm. by subst.
  - assert (Hne : 0 < length promises) by (rewrite Hps; cbn; lia).
    rewrite <- Hps in *. clear r rs Hps.
    assert (Hlen : length order = length promises).
    { by rewrite Hperm, length_seq. }
    rewrite <- Hlen at 2.
    rewrite settle_spec.
    + destruct (firstRejection order promises); [done|].
      by rewrite omap_id_fulfilment.
    + rewrite Hperm. apply NoDup_seq.
    + by rewrite length_replicate.
    + intros i Hi. rewrite Hperm in Hi. apply elem_of_seq in Hi.
      split; [lia|]. apply lookup_replicate_2. lia.
    + intros i Hi Hnotin. exfalso. apply Hnotin. rewrite Hperm.
      apply elem_of_seq. lia.
    + intros ->. cbn in Hlen. lia.
Qed.

End All.
End PromiseFacts.

(** ** Values of a resolved [Promise.all] come from its inputs *)

Module PromiseSound.
Import Promise.
Section All.
Context {A : Type}.
Implicit Types (promises : list (Result A)) (order : list nat).

Lemma settle_sound promises order values remaining result :
  (forall i x, values !! i = Some (Some x) -> promises !! i = Some (Ok x)) ->
  settle order promises values remaining = Some (Ok result) ->
  forall i x, result !! i = Some (Some x) -> promises !! i = Some (Ok x).
Proof.
  revert values remaining.
  induction order as [|index order' IH]; intros values remaining Hinv Hres;
    [done|].
  cbn in Hres.
  destruct (promises !! index) as [[x|e]|] eqn:Hp;
    destruct (values !! index) as [[y|]|] eqn:Hv;
    try exact (IH _ _ Hinv Hres); try done.
  assert (Hinv' : forall i z, <[index:=Some x]> values !! i = Some (Some z) ->
                              promises !! i = Some (Ok z)).
  { intros i z Hi. destruct (decide (i = index)) as [->|Hne].
    - rewrite list_lookup_insert_eq in Hi by (by eapply lookup_lt_Some).
      by injection Hi as <-.
    - rewrite list_lookup_insert_ne in Hi by done. by apply Hinv. }
  destruct remaining as [|[|k]];
    [exact (IH _ _ Hinv' Hres)| |exact (IH _ _ Hinv' Hres)].
  injection Hres as <-. exact Hinv'.
Qed.

Lemma all_sound promises order result :
  all order promises = Some (Ok result) ->
  forall x, x ∈ result -> Ok x ∈ promises.
Proof.
  unfold all. intros Hall x Hx.
  destruct promises as [|r rs] eqn:Hps.
  - injection Hall as <-. by apply elem_of_nil in Hx.
  - rewrite <- Hps in *.
    destruct (settle _ _ _ _) as [[values|e]|] eqn:Hsettle; [|done..].
    injection Hall as <-.
    apply list_elem_of_omap in Hx as (o & Ho & Hid). cbn in Hid. subst o.
    apply list_elem_of_lookup in Ho as [i Hi].
    assert (Hinit : forall j y,
              replicate (length promises) (@None A) !! j = Some (Some y) ->
              promises !! j = Some (Ok y)).
    { intros j y Hj. apply lookup_replicate in Hj as [? _]. done. }
    eapply list_elem_of_lookup_2.
    exact (settle_sound _ _ _ _ _ Hinit Hsettle i x Hi).
Qed.

End All.
End PromiseSound.

(** ** Documents as a namespace-aware XML reader builds them *)

Module DomFacts.
Import Dom.


Lemma namespaceAware_unfold p l attrs kids :
  namespaceAware (Element p l attrs kids)
  = negb (Js.contains Js.colon l) && forallb namespaceAware kids.
Proof. reflexivity. Qed.

Lemma inclusiveDescendants_unfold ancs p l attrs kids :
  inclusiveDescendants ancs (Element p l attrs kids)
  = (ancs, Element p l attrs kids)
      :: List.concat (map (inclusiveDescendants (Element p l attrs kids :: ancs)) kids).
Proof.
  cbn. f_equal.
  generalize (Element p l attrs kids :: ancs). intros ancs'.
  induction kids as [|k ks IH]; cbn; [done|]. by rewrite IH.
Qed.

Lemma namespaceAware_descendants n :
  namespaceAware n = true ->
  forall ancs q, q ∈ inclusiveDescendants ancs n ->
    Js.contains Js.colon (localNameOf (snd q)) = false.
Proof.
  induction n as [p l attrs kids IH|d] using Node_ind; intros Hwf ancs q Hq.
  - rewrite namespaceAware_unfold in Hwf.
    apply andb_true_iff in Hwf as [Hl Hkids].
    rewrite inclusiveDescendants_unfold in Hq.
    apply elem_of_cons in Hq as [->|Hq].
    + cbn. by apply negb_true_iff.
    + apply list_elem_of_In, in_concat in Hq as (ds & Hds & Hq).
      apply in_map_iff in Hds as (k & <- & Hk).
      rewrite Forall_forall in IH.
      rewrite forallb_forall in Hkids.
      eapply (IH k); [by apply list_elem_of_In|auto|by apply list_elem_of_In].
  - by apply elem_of_nil in Hq.
Qed.

Lemma find_none {A} (f : A -> bool) (l : list A) :
  (forall x, x ∈ l -> f x = false) -> List.find f l = None.
Proof.
  induction l as [|x l IH]; intros H; [done|].
  cbn. rewrite H by (apply elem_of_cons; by left).
  apply IH. intros y Hy. apply H, elem_of_cons. by right.
Qed.

(** A type selector whose name holds a colon selects nothing in such a
    document. *)
Lemma matchesCompound_colon c n :
  Js.contains Js.colon (typeName c) = true ->
  Js.contains Js.colon (localNameOf n) = false ->
  matchesCompound c n = false.
Proof.
  intros Hc Hn. unfold matchesCompound.
  destruct (decide (localNameOf n = typeName c)) as [Heq|Hne].
  - rewrite Heq in Hn. congruence.
  - rewrite (bool_decide_eq_false_2 _ Hne). by rewrite andb_false_r.
Qed.

Lemma querySelector_colon (sel : SelectorList) d :
  Forall (fun cx => match cx with
                    | [] => True
                    | c :: _ => Js.contains Js.colon (typeName c) = true
                    end) sel ->
  namespaceAware (documentElement d) = true ->
  querySelector sel d = None.
Proof.
  intros Hsel Hwf. unfold querySelector. apply find_none.
  intros q Hq. unfold matchesSelector.
  apply not_true_is_false. intros Hex.
  apply existsb_exists in Hex as (cx & Hcx & Hm).
  rewrite Forall_forall in Hsel.
  specialize (Hsel cx (proj2 (list_elem_of_In _ _) Hcx)).
  destruct cx as [|c cs]; [done|]. cbn in Hm.
  apply andb_true_iff in Hm as [Hm _].
  rewrite matchesCompound_colon in Hm; [done|done|].
  by eapply namespaceAware_descendants.
Qed.

End DomFacts.

(** ** The importer in terms of its slide tasks *)

Module ImporterFacts.
Import Dom Importer Reading.

Section WithSelectorEngine.
Variable otherSelector :
  string -> Document -> Result (option (list Node * Node)).

Abbreviation slideTask := (slideTask otherSelector).
Abbreviation parsePptx := (parsePptx otherSelector).
Abbreviation querySelectorById := (querySelectorById otherSelector).
Abbreviation slidesFrom := (slidesFrom otherSelector).


Lemma slidesFrom_cons zip node refs :
  slidesFrom zip (node :: refs)
  = match slideTask zip node with
    | Ok (Some slide) => slide :: slidesFrom zip refs
    | _ => slidesFrom zip refs
    end.
Proof.
  unfold slidesFrom, Promise.fulfilled. cbn.
  by destruct (slideTask zip node) as [[slide|]|e].
Qed.

(** With the manifest present and a completion order that settles every
    task once, the import settles: with the first rejection among the
    tasks in completion order, else with the zero-slides error, else
    with the slides in manifest order. *)
Lemma parsePptx_spec order zip presentationXml :
  zip !! presentationPath = Some presentationXml ->
  Permutation order (seq 0 (length (slideIdNodes presentationXml))) ->
  parsePptx order zip
  = Some match Promise.firstRejection order
                 (slideTask zip <$> slideIdNodes presentationXml) with
         | Some e => Throw e
         | None =>
             if decide (slidesFrom zip (slideIdNodes presentationXml) = [])
             then Throw noSlides
             else Ok (slidesFrom zip (slideIdNodes presentationXml))
         end.
Proof.
  intros Hzip Hperm. unfold Importer.parsePptx. rewrite Hzip.
  rewrite PromiseFacts.all_spec by (by rewrite length_fmap).
  destruct (Promise.firstRejection _ _); [done|].
  fold (slidesFrom zip (slideIdNodes presentationXml)).
  destruct (slidesFrom zip (slideIdNodes presentationXml)); done.
Qed.

Lemma parsePptx_no_manifest order zip :
  zip !! presentationPath = None ->
  parsePptx order zip = Some (Throw noManifest).
Proof. intros Hzip. unfold Importer.parsePptx. by rewrite Hzip. Qed.

Lemma firstRejection_fulfilled {A} order (promises : list (Result A)) :
  Forall (fun r => exists a, r = Ok a) promises ->
  Promise.firstRejection order promises = None.
Proof.
  intros Hall. induction order as [|i order' IH]; [done|].
  cbn. destruct (promises !! i) as [r|] eqn:Hr; [|done].
  rewrite Forall_lookup in Hall.
  by destruct (Hall _ _ Hr) as [a ->].
Qed.


(** *** The index as a table, and the selector that reads it *)


Lemma plain_classifyId rId : classifyId rId = IdPlain -> plain rId = true.
Proof.
  induction rId as [|c rest IH]; [done|]. cbn.
  repeat case_decide; try done.
  intros Hrest. rewrite (IH Hrest), andb_true_r.
  apply negb_true_iff, bool_decide_eq_false.
  rewrite !elem_of_cons, elem_of_nil. tauto.
Qed.






(** Every slide a task yields is built by [extractSlide] from a part of
    the archive. *)
Lemma slideTask_slide zip node slide :
  slideTask zip node = Ok (Some slide) ->
  exists slidePath slideXml,
    zip !! ("ppt/" +:+ slidePath) = Some slideXml
    /\ slide = extractSlide zip slidePath slideXml.
Proof.
  unfold Importer.slideTask. intros H.
  destruct (Js.truthy (getAttribute "r:id" node)) as [rId|]; [|done].
  destruct (zip !! presentationRelsPath) as [presRelsXml|]; [|done].
  destruct (querySelectorById rId presRelsXml) as [rel|e]; [|done].
  cbn in H.
  destruct (Js.truthy _) as [slidePath|]; [|done].
  destruct (zip !! _) as [slideXml|] eqn:Hpart; [|done].
  injection H as <-. eauto.
Qed.

(** So is every slide of an import that returns, whatever the completion
    order. *)
Lemma parsePptx_slides order zip slides :
  parsePptx order zip = Some (Ok slides) ->
  Forall (fun slide => exists slidePath slideXml,
            zip !! ("ppt/" +:+ slidePath) = Some slideXml
            /\ slide = extractSlide zip slidePath slideXml) slides.
Proof.
  unfold Importer.parsePptx. intros Hparse.
  destruct (zip !! presentationPath) as [presentationXml|]; [|done].
  destruct (Promise.all _ _) as [[results|e]|] eqn:Hall; [|done..].
  destruct (decide _); [done|]. injection Hparse as <-.
  apply Forall_forall. intros slide Hslide.
  apply list_elem_of_omap in Hslide as (o & Ho & Hid). cbn in Hid. subst o.
  apply (PromiseSound.all_sound _ _ _ Hall) in Ho.
  apply list_elem_of_fmap in Ho as (node & Htask & _).
  symmetry in Htask. by eapply slideTask_slide.
Qed.

(** *** Slide parts as a namespace-aware reader builds them *)

(** In such a document the title and body selectors, whose type names
    hold a colon, select nothing: the importer falls back to its
    defaults. *)
Lemma extractTitle_namespaceAware slideXml :
  namespaceAware (documentElement slideXml) = true ->
  extractTitle slideXml = "Untitled Slide".
Proof.
  intros Hwf. unfold extractTitle.
  rewrite DomFacts.querySelector_colon; [done| |done].
  repeat constructor.
Qed.

Lemma extractContent_namespaceAware slideXml :
  namespaceAware (documentElement slideXml) = true ->
  extractContent slideXml = [].
Proof.
  intros Hwf. unfold extractContent.
  rewrite DomFacts.querySelector_colon; [done| |done].
  repeat constructor.
Qed.

(** Hence every slide imported from an archive of such parts has the
    placeholder title and no content. *)
Lemma parsePptx_namespaceAware order zip slides :
  (forall name d, zip !! name = Some d ->
     namespaceAware (documentElement d) = true) ->
  parsePptx order zip = Some (Ok slides) ->
  Forall (fun slide => title slide = "Untitled Slide" /\ content slide = [])
         slides.
Proof.
  intros Hwf Hparse. eapply Forall_impl; [by eapply parsePptx_slides|].
  intros slide (slidePath & slideXml & Hpart & ->). cbn.
  split.
  - eapply extractTitle_namespaceAware, Hwf, Hpart.
  - eapply extractContent_namespaceAware, Hwf, Hpart.
Qed.

(** *** Speaker notes *)

(** When the part lies where the importer looks, the notes are all text
    runs of the notes document, joined without separator. *)
Lemma extractSpeakerNotes_found zip slidePath slideRelsXml notesRel notesPath notesXml :
  zip !! slideRelsPath slidePath = Some slideRelsXml ->
  querySelector notesRelSelector slideRelsXml = Some notesRel ->
  Js.truthy (getAttribute "Target" (snd notesRel)) = Some notesPath ->
  zip !! notesFilePath notesPath = Some notesXml ->
  extractSpeakerNotes zip slidePath
  = Js.join "" (textContent <$> documentGetElementsByTagName "a:t" notesXml).
Proof.
  intros Hrels Hrel Htarget Hnotes. unfold extractSpeakerNotes.
  rewrite Hrels, Hrel. cbn. by rewrite Htarget, Hnotes.
Qed.

(** Without relationship index of the slide, without notes relationship
    in it, or without a part where the importer looks, the notes are
    empty. *)
Lemma extractSpeakerNotes_no_index zip slidePath :
  zip !! slideRelsPath slidePath = None ->
  extractSpeakerNotes zip slidePath = "".
Proof. intros H. unfold extractSpeakerNotes. by rewrite H. Qed.

Lemma extractSpeakerNotes_no_relationship zip slidePath slideRelsXml :
  zip !! slideRelsPath slidePath = Some slideRelsXml ->
  querySelector notesRelSelector slideRelsXml = None ->
  extractSpeakerNotes zip slidePath = "".
Proof. intros H1 H2. unfold extractSpeakerNotes. by rewrite H1, H2. Qed.

Lemma extractSpeakerNotes_no_part zip slidePath slideRelsXml notesRel notesPath :
  zip !! slideRelsPath slidePath = Some slideRelsXml ->
  querySelector notesRelSelector slideRelsXml = Some notesRel ->
  Js.truthy (getAttribute "Target" (snd notesRel)) = Some notesPath ->
  zip !! notesFilePath notesPath = None ->
  extractSpeakerNotes zip slidePath = "".
Proof.
  intros Hrels Hrel Htarget Hnotes. unfold extractSpeakerNotes.
  rewrite Hrels, Hrel. cbn. by rewrite Htarget, Hnotes.
Qed.

(** An identifier without special characters is looked up as written. *)
Lemma querySelectorById_plain rId presRelsXml :
  classifyId rId = IdPlain ->
  querySelectorById rId presRelsXml
  = Ok (querySelector
          [ [ mkCompound "Relationship" [AttrEquals "Id" rId] ] ] presRelsXml).
Proof. intros H. unfold Importer.querySelectorById. by rewrite H. Qed.

(** A notes target that starts with the parent-directory marker is
    looked up below the slide directory, a target without marker beside
    the slide parts. *)
Lemma notesFilePath_parent_marker rest :
  notesFilePath ("../" +:+ rest) = "ppt/slides/" +:+ rest.
Proof. unfold notesFilePath. by rewrite JsFacts.removeFirst_prefix. Qed.

Lemma notesFilePath_no_marker target :
  Js.includes "../" target = false ->
  notesFilePath target = "ppt/slides/" +:+ target.
Proof.
  intros H. unfold notesFilePath. by rewrite JsFacts.removeFirst_absent.
Qed.

End WithSelectorEngine.
End ImporterFacts.

(** ** Properties of the importer *)

Module ImporterProperties.
Import Dom Importer Reading ImporterFacts.

Section WithSelectorEngine.
Variable otherSelector :
  string -> Document -> Result (option (list Node * Node)).

Abbreviation slideTask := (slideTask otherSelector).
Abbreviation parsePptx := (parsePptx otherSelector).
Abbreviation slidesFrom := (slidesFrom otherSelector).
Abbreviation selectorsParse := (selectorsParse otherSelector).






(** C10: no slide an import returns has an image; saving an edit
    attaches none, a rejected image generation changes nothing, and a
    fulfilled one attaches its image to the current slide alone. *)
Theorem parsePptx_leaves_imageUrl_undefined order zip slides :
  parsePptx order zip = Some (Ok slides) ->
  Forall (fun slide => imageUrl slide = None) slides
  /\ (forall index editedTitle editedNotes,
        Forall (fun slide => imageUrl slide = None)
               (Viewer.handleSave index editedTitle editedNotes slides))
  /\ (forall index e, Viewer.handleGenerateImage (Throw e) index slides = slides)
  /\ (forall index url i slide,
        Viewer.handleGenerateImage (Ok url) index slides !! i = Some slide ->
        imageUrl slide = if decide (i = index) then Some url else None).
Proof.
  intros Hparse.
  assert (Hnone : Forall (fun slide => imageUrl slide = None) slides).
  { eapply Forall_impl; [by eapply parsePptx_slides|].
    by intros slide (slidePath & slideXml & _ & ->). }
  rewrite Forall_lookup in Hnone.
  split; [by apply Forall_lookup|split; [|split; [done|]]].
  - intros index editedTitle editedNotes. apply Forall_lookup.
    intros i slide. unfold Viewer.handleSave. rewrite list_lookup_imap.
    destruct (slides !! i) as [old|] eqn:Hi; [|done]. cbn.
    intros [= <-]. destruct (decide _); cbn; by eapply Hnone.
  - intros index url i slide. unfold Viewer.handleGenerateImage.
    rewrite list_lookup_imap.
    destruct (slides !! i) as [old|] eqn:Hi; [|done]. cbn.
    intros [= <-]. destruct (decide _); cbn; [done|by eapply Hnone].
Qed.

Lemma slideTask_without_index zip node :
  zip !! presentationRelsPath = None ->
  slideTask zip node = Ok None \/ slideTask zip node = Throw noRelationships.
Proof.
  intros Hrels. unfold Importer.slideTask. rewrite Hrels.
  destruct (Js.truthy _); auto.
Qed.

Lemma slidesFrom_without_index zip refs :
  zip !! presentationRelsPath = None -> slidesFrom zip refs = [].
Proof.
  intros Hrels. induction refs as [|node refs IH]; [done|].
  rewrite slidesFrom_cons.
  by destruct (slideTask_without_index zip node Hrels) as [-> | ->].
Qed.

Lemma slideTask_with_index zip node presRelsXml :
  zip !! presentationRelsPath = Some presRelsXml ->
  (forall rId, Js.truthy (getAttribute "r:id" node) = Some rId ->
     exists found, querySelectorById otherSelector rId presRelsXml = Ok found) ->
  exists outcome, slideTask zip node = Ok outcome.
Proof.
  intros Hrels Hparse. unfold Importer.slideTask. rewrite Hrels.
  destruct (Js.truthy (getAttribute "r:id" node)) as [rId|]; [|by eexists].
  destruct (Hparse rId eq_refl) as [found ->]. cbn.
  destruct (Js.truthy (found ≫= _)) as [slidePath|]; [|by eexists].
  destruct (zip !! ("ppt/" +:+ slidePath)); by eexists.
Qed.

(** As long as every selector parses, the import fails in exactly three
    cases: no manifest, no manifest relationship index, no slide. *)
Lemma parsePptx_fails_iff order zip :
  Permutation order (seq 0 (taskCount zip)) ->
  selectorsParse zip ->
  (exists e, parsePptx order zip = Some (Throw e))
  <-> zip !! presentationPath = None
      \/ zip !! presentationRelsPath = None
      \/ exists presentationXml,
           zip !! presentationPath = Some presentationXml
           /\ slidesFrom zip (slideIdNodes presentationXml) = [].
Proof.
  unfold taskCount. intros Hperm Hparse.
  destruct (zip !! presentationPath) as [presentationXml|] eqn:Hzip.
  - rewrite (parsePptx_spec _ _ _ _ Hzip Hperm). split.
    + intros [e He].
      destruct (zip !! presentationRelsPath) as [presRelsXml|] eqn:Hrels;
        [|auto].
      right. right. exists presentationXml. split; [done|].
      rewrite firstRejection_fulfilled in He.
      * by destruct (decide _).
      * apply Forall_fmap, Forall_forall. intros node Hnode. cbn.
        eapply slideTask_with_index; [done|]. intros rId HrId.
        by eapply Hparse.
    + intros [?|[Hrels|(d & [= <-] & Hnone)]]; [done| |].
      * rewrite (slidesFrom_without_index _ _ Hrels).
        destruct (Promise.firstRejection _ _); cbn; eauto.
      * rewrite Hnone. destruct (Promise.firstRejection _ _); cbn; eauto.
  - rewrite (parsePptx_no_manifest _ _ _ Hzip). split; eauto.
Qed.

End WithSelectorEngine.
End ImporterProperties.

(** ** The importer on the sample archives *)

Module DeckProperties.
Import Dom Importer Reading ImporterFacts ImporterProperties Decks.





(** The identifier condition of C1 and C3 is needed: the only reference
    of this manifest resolves, through the entry of the index under its
    identifier, to the part of the first slide, and the import fails
    with the exception of the selector, the identifier being a double
    quote. *)
Lemma quoted_entry_aborts_import otherSelector :
  quotedEntryDeck !! presentationPath = Some (presentation [sldId quoteId])
  /\ resolvesTo quotedEntryDeck (sldId quoteId) "slides/slide1.xml" introSlide
  /\ plain quoteId = false
  /\ parsePptx otherSelector [0] quotedEntryDeck
     = Some (Throw (SyntaxError (relationshipByIdText quoteId))).
Proof.
  split; [by vm_compute|]. split; [|split; by vm_compute].
  exists quoteId, (relationships [relationship quoteId slideType "slides/slide1.xml"]),
    (relationship quoteId slideType "slides/slide1.xml").
  repeat split; by vm_compute.
Qed.

(** An empty identifier counts as none: the reference is skipped, and
    the import, nothing remaining, fails with the zero-slides error. *)
Lemma empty_identifier_is_skipped otherSelector :
  getAttribute "r:id" (sldId "") = Some ""
  /\ Unresolvable emptyIdDeck (sldId "")
  /\ slideTask otherSelector emptyIdDeck (sldId "") = Ok None
  /\ parsePptx otherSelector [0] emptyIdDeck = Some (Throw noSlides).
Proof.
  split; [by vm_compute|]. split; [|split; by vm_compute].
  apply NoIdentifier. by vm_compute.
Qed.


(** The three slides of [besideDeck] carry no image. *)
Lemma parsePptx_leaves_imageUrl_undefined_witness :
  Forall (fun slide => imageUrl slide = None)
         [noted "First"; noted "Second"; noted "Third"]
  /\ (forall index editedTitle editedNotes,
        Forall (fun slide => imageUrl slide = None)
               (Viewer.handleSave index editedTitle editedNotes
                  [noted "First"; noted "Second"; noted "Third"]))
  /\ (forall index e,
        Viewer.handleGenerateImage (Throw e) index
          [noted "First"; noted "Second"; noted "Third"]
        = [noted "First"; noted "Second"; noted "Third"])
  /\ (forall index url i slide,
        Viewer.handleGenerateImage (Ok url) index
          [noted "First"; noted "Second"; noted "Third"] !! i = Some slide ->
        imageUrl slide = if decide (i = index) then Some url else None).
Proof.
  apply (parsePptx_leaves_imageUrl_undefined refuse [0; 1; 2] besideDeck).
  vm_compute. reflexivity.
Defined.

(** C2: with the manifest and its relationship index present and a
    first reference that resolves, a second reference whose identifier
    is a double quote makes the import fail: the selector built from it
    is no selector, in either completion order. *)
Theorem quoted_identifier_aborts_import otherSelector :
  quoteDeck !! presentationPath
    = Some (presentation [sldId "rId2"; sldId quoteId])
  /\ quoteDeck !! presentationRelsPath = Some standardRels
  /\ slideTask otherSelector quoteDeck (sldId "rId2")
     = Ok (Some (extractSlide quoteDeck "slides/slide1.xml" introSlide))
  /\ parsePptx otherSelector [0; 1] quoteDeck
     = Some (Throw (SyntaxError (relationshipByIdText quoteId)))
  /\ parsePptx otherSelector [1; 0] quoteDeck
     = Some (Throw (SyntaxError (relationshipByIdText quoteId))).
Proof. repeat split; by vm_compute. Qed.

(** C4: the notes target of the format, with its parent-directory
    marker, is looked up below the slide directory, not beside it. *)
Theorem notes_target_is_looked_up_below_slides :
  notesFilePath "../notesSlides/notesSlide1.xml"
    = "ppt/slides/notesSlides/notesSlide1.xml"
  /\ notesFilePath "../notesSlides/notesSlide1.xml"
     <> "ppt/notesSlides/notesSlide1.xml"
  /\ standardDeck !! "ppt/notesSlides/notesSlide1.xml" = Some introNotes
  /\ standardDeck !! notesFilePath "../notesSlides/notesSlide1.xml" = None.
Proof. repeat split; by vm_compute. Qed.

(** C5: the shape flagged as title placeholder holds the runs "Intro"
    and " to Rome", and the title of the slide is the placeholder label. *)
Theorem title_runs_are_not_extracted :
  textRuns introTitle = "Intro to Rome"
  /\ extractTitle introSlide = "Untitled Slide"
  /\ fieldOf title (parsePptx refuse [0; 1; 2] standardDeck)
     = Some ["Untitled Slide"; "Untitled Slide"; "Untitled Slide"].
Proof. repeat split; by vm_compute. Qed.

(** C6: the shape flagged as body placeholder holds two paragraphs, and
    the content of the slide is empty. *)
Theorem body_paragraphs_are_not_extracted :
  textRuns <$> getElementsByTagName "a:p" introBody
    = ["Founded in 753 BC"; "Seven hills"]
  /\ extractContent introSlide = []
  /\ fieldOf content (parsePptx refuse [0; 1; 2] standardDeck)
     = Some [[]; []; []].
Proof. repeat split; by vm_compute. Qed.

(** Were the names of the slide part kept whole, as a reader without
    namespaces keeps them, the selectors would find both shapes and the
    extraction would give the title and the content of the shapes. *)
Lemma extraction_without_namespaces :
  extractTitle (mkDocument (namespaceUnaware (documentElement introSlide)))
    = "Intro to Rome"
  /\ extractContent (mkDocument (namespaceUnaware (documentElement introSlide)))
     = ["Founded in 753 BC"; "Seven hills"].
Proof. split; by vm_compute. Qed.

(** C7: the relationship index of the first slide names its notes part,
    the part is in the archive and holds text runs, and the speaker
    notes of the slide are empty. *)
Theorem standard_notes_are_not_extracted :
  standardDeck !! slideRelsPath "slides/slide1.xml" = Some introSlideRels
  /\ (querySelector notesRelSelector introSlideRels
        ≫= (getAttribute "Target" ∘ snd))
     = Some "../notesSlides/notesSlide1.xml"
  /\ standardDeck !! "ppt/notesSlides/notesSlide1.xml" = Some introNotes
  /\ Js.join "" (textContent <$> documentGetElementsByTagName "a:t" introNotes)
     = "Welcome everyone"
  /\ extractSpeakerNotes standardDeck "slides/slide1.xml" = ""
  /\ fieldOf speakerNotes (parsePptx refuse [0; 1; 2] standardDeck)
     = Some [""; ""; ""].
Proof. repeat split; by vm_compute. Qed.

End DeckProperties.

(** ** The markdown export *)

Module MarkdownProperties.
Import Viewer MarkdownLayout.

Lemma join_bullets points :
  Js.join newline ((fun point => "- " +:+ point) <$> points)
  = bulletedList points.
Proof.
  induction points as [|point [|next rest] IH]; [done..|].
  change (bulletedList (point :: next :: rest))
    with (bullet point +:+ newline +:+ bulletedList (next :: rest)).
  by rewrite <- IH.
Qed.

Lemma slideMarkdown_layout slide : slideMarkdown slide = serializedSlide slide.
Proof.
  unfold slideMarkdown, serializedSlide. by rewrite join_bullets.
Qed.

(** C9: the export of a non-empty slide sequence is, slide by slide, a
    heading with the title, a bulleted list with one bullet per content
    string and a notes section with the speaker notes, with a horizontal
    rule between consecutive slides. *)
Theorem markdownContent_layout first rest :
  markdownContent (first :: rest) = serializedDeck first rest.
Proof.
  unfold markdownContent. revert first.
  induction rest as [|next rest IH]; intros first.
  - apply slideMarkdown_layout.
  - change (serializedDeck first (next :: rest))
      with (serializedSlide first +:+ horizontalRule +:+ serializedDeck next rest).
    rewrite <- IH, <- slideMarkdown_layout. reflexivity.
Qed.

End MarkdownProperties.

(** ** Strings *)

Module StringFacts.

Lemma append_assoc (a b c : string) : (a +:+ b) +:+ c = a +:+ (b +:+ c).
Proof.
  induction a as [|x a IH]; [done|].
  change (String x ((a +:+ b) +:+ c) = String x (a +:+ (b +:+ c))).
  by rewrite IH.
Qed.

Lemma append_nil_r (a : string) : a +:+ "" = a.
Proof.
  induction a as [|x a IH]; [done|].
  change (String x (a +:+ "") = String x a). by rewrite IH.
Qed.

Lemma append_cons x (a b : string) : String x a +:+ b = String x (a +:+ b).
Proof. reflexivity. Qed.

Lemma append_nil_l (a : string) : "" +:+ a = a.
Proof. reflexivity. Qed.

Lemma stripPrefix_Some p s rest :
  Js.stripPrefix p s = Some rest <-> s = p +:+ rest.
Proof.
  revert s. induction p as [|a p IH]; intros s.
  - rewrite append_nil_l. cbn. split; congruence.
  - rewrite append_cons. destruct s as [|b s]; cbn; [split; discriminate|].
    destruct (decide (a = b)) as [->|Hne].
    + rewrite IH. split; [by intros ->|by intros [= ->]].
    + split; [discriminate|]. intros [= ? ?]. done.
Qed.

(** [includes] finds exactly the substrings. *)
Lemma includes_true p s :
  Js.includes p s = true <-> exists before after, s = before +:+ p +:+ after.
Proof.
  induction s as [|c s IH].
  - cbn. destruct (Js.stripPrefix p "") as [rest|] eqn:Hp.
    + apply stripPrefix_Some in Hp. split; [|done].
      intros _. by exists "", rest.
    + split; [done|]. intros (before & after & H).
      destruct before; [|done]. rewrite append_nil_l in H.
      apply stripPrefix_Some in H. congruence.
  - cbn [Js.includes].
    destruct (Js.stripPrefix p (String c s)) as [rest|] eqn:Hp.
    + apply stripPrefix_Some in Hp. split; [|done].
      intros _. by exists "", rest.
    + rewrite IH. split.
      * intros (before & after & ->). by exists (String c before), after.
      * intros (before & after & H). destruct before as [|b before].
        -- rewrite append_nil_l in H.
           apply stripPrefix_Some in H. congruence.
        -- rewrite append_cons in H. injection H as -> ->. eauto.
Qed.

Lemma includes_trans a b c :
  Js.includes a b = true -> Js.includes b c = true -> Js.includes a c = true.
Proof.
  rewrite !includes_true.
  intros (b1 & b2 & ->) (c1 & c2 & ->).
  exists (c1 +:+ b1), (b2 +:+ c2). by rewrite !append_assoc.
Qed.

Lemma join_app sep (l1 l2 : list string) :
  l1 <> [] -> l2 <> [] ->
  Js.join sep (l1 ++ l2) = Js.join sep l1 +:+ sep +:+ Js.join sep l2.
Proof.
  intros H1 H2. induction l1 as [|x [|y l1] IH]; [done| |].
  - destruct l2; done.
  - change (Js.join sep ((x :: y :: l1) ++ l2))
      with (x +:+ sep +:+ Js.join sep ((y :: l1) ++ l2)).
    rewrite IH by done.
    change (Js.join sep (x :: y :: l1)) with (x +:+ sep +:+ Js.join sep (y :: l1)).
    by rewrite !append_assoc.
Qed.

End StringFacts.

(** ** The slide viewer *)

Module SlideViewerProperties.
Import Viewer SlideViewer.

Local Open Scope Z_scope.

(** X1: in a deck that is not empty, both navigation buttons lead from a
    slide of the deck to a slide of the deck. *)
Theorem navigation_stays_in_deck slides index :
  0 <= index < Z.of_nat (length slides) ->
  (0 <= goToNext slides index < Z.of_nat (length slides)
   /\ is_Some (item slides (goToNext slides index)))
  /\ (0 <= goToPrevious slides index < Z.of_nat (length slides)
      /\ is_Some (item slides (goToPrevious slides index))).
Proof.
  intros Hin.
  assert (Hitem : forall i, 0 <= i < Z.of_nat (length slides) ->
            is_Some (item slides i)).
  { intros i Hi. unfold item. rewrite decide_True by lia.
    apply lookup_lt_is_Some. lia. }
  unfold goToNext, goToPrevious.
  repeat case_decide; repeat split; try lia; apply Hitem; lia.
Qed.

(** X2: the two buttons undo each other, at the ends of the deck too. *)
Theorem navigation_round_trip slides index :
  0 <= index < Z.of_nat (length slides) ->
  goToPrevious slides (goToNext slides index) = index
  /\ goToNext slides (goToPrevious slides index) = index.
Proof.
  intros Hin. unfold goToNext, goToPrevious.
  repeat case_decide; split; lia.
Qed.

Lemma goToNext_mod slides index :
  0 <= index < Z.of_nat (length slides) ->
  goToNext slides index = (index + 1) mod Z.of_nat (length slides).
Proof.
  intros Hin. unfold goToNext. case_decide as Hlast.
  - rewrite Hlast. replace (Z.of_nat (length slides) - 1 + 1)
      with (Z.of_nat (length slides)) by lia.
    rewrite Z.mod_same; lia.
  - rewrite Z.mod_small; lia.
Qed.

Lemma goToNext_iter slides index presses :
  0 <= index < Z.of_nat (length slides) ->
  Nat.iter presses (goToNext slides) index
  = (index + Z.of_nat presses) mod Z.of_nat (length slides).
Proof.
  intros Hin. induction presses as [|presses IH].
  - cbn. rewrite Z.add_0_r, Z.mod_small; lia.
  - rewrite Nat.iter_succ, IH, goToNext_mod.
    + rewrite Zplus_mod_idemp_l. f_equal. lia.
    + apply Z.mod_pos_bound. lia.
Qed.

(** X3: pressing next as many times as the deck has slides leads back
    to the slide one started from. *)
Theorem navigation_cycles slides index :
  0 <= index < Z.of_nat (length slides) ->
  Nat.iter (length slides) (goToNext slides) index = index.
Proof.
  intros Hin. rewrite goToNext_iter by done.
  rewrite <- (Z.mul_1_l (Z.of_nat (length slides))) at 1.
  rewrite Z.mod_add by lia. apply Z.mod_small. lia.
Qed.

Local Close Scope Z_scope.

Lemma imap_id_lookup {A} (f : nat -> A -> A) (l : list A) :
  (forall i x, l !! i = Some x -> f i x = x) -> imap f l = l.
Proof.
  intros H. apply list_eq. intros i. rewrite list_lookup_imap.
  destruct (l !! i) as [x|] eqn:Hi; [|done]. cbn. by rewrite (H i x).
Qed.

(** X4: saving an edit keeps the number of slides, and the bullet
    points and the image of every slide; every slide but the current
    one stays as it is, and the current one gets the edited title and
    the edited notes and nothing else. *)
Theorem handleSave_changes_only_the_current_slide
    index editedTitle editedNotes slides :
  length (Viewer.handleSave index editedTitle editedNotes slides) = length slides
  /\ content <$> Viewer.handleSave index editedTitle editedNotes slides
     = content <$> slides
  /\ imageUrl <$> Viewer.handleSave index editedTitle editedNotes slides
     = imageUrl <$> slides
  /\ (forall i, i <> index ->
        Viewer.handleSave index editedTitle editedNotes slides !! i
        = slides !! i)
  /\ (forall slide, slides !! index = Some slide ->
        Viewer.handleSave index editedTitle editedNotes slides !! index
        = Some {| title := editedTitle;
                  content := content slide;
                  speakerNotes := editedNotes;
                  imageUrl := imageUrl slide |}).
Proof.
  unfold Viewer.handleSave. split; [by rewrite length_imap|].
  split; [|split; [|split]].
  - apply list_eq; intros i; rewrite !list_lookup_fmap, list_lookup_imap.
    destruct (slides !! i); cbn; [|done]. by case_decide.
  - apply list_eq; intros i; rewrite !list_lookup_fmap, list_lookup_imap.
    destruct (slides !! i); cbn; [|done]. by case_decide.
  - intros i Hi. rewrite list_lookup_imap.
    destruct (slides !! i); cbn; [|done]. by rewrite decide_False.
  - intros slide Hslide. rewrite list_lookup_imap, Hslide. cbn.
    by rewrite decide_True.
Qed.

(** X5: a save that follows Cancel, or the effect that fills the two
    editors, hands back the slides as they were. *)
Theorem save_after_cancel_changes_nothing slides st :
  (forall st', handleCancel slides st = Some st' ->
     fst (SlideViewer.handleSave slides st') = slides)
  /\ fst (SlideViewer.handleSave slides (syncEffect slides st)) = slides.
Proof.
  assert (Hsame : forall st',
            currentSlideIndex st' = currentSlideIndex st ->
            (forall slide, currentSlide slides st = Some slide ->
               editedTitle st' = title slide
               /\ editedNotes st' = speakerNotes slide) ->
            fst (SlideViewer.handleSave slides st') = slides).
  { intros st' Hi Hfields. unfold SlideViewer.handleSave. cbn.
    rewrite Hi. unfold currentSlide, item in Hfields.
    case_decide; [|done].
    unfold Viewer.handleSave. apply imap_id_lookup.
    intros i x Hx. case_decide as Heq; [|done]. subst i.
    destruct (Hfields x Hx) as [-> ->]. by destruct x. }
  split.
  - intros st' Hcancel. unfold handleCancel in Hcancel.
    destruct (currentSlide slides st) as [slide|] eqn:Hcur; [|done].
    injection Hcancel as <-. apply Hsame; [done|].
    by intros ? [= <-].
  - unfold syncEffect.
    destruct (currentSlide slides st) as [slide|] eqn:Hcur.
    + apply Hsame; [done|]. by intros ? [= <-].
    + apply Hsame; [done|]. by intros ? [=].
Qed.

(** X6: of two saves on the same slide the later one decides, whatever
    the earlier one wrote. *)
Theorem handleSave_last_save_wins index title1 notes1 title2 notes2 slides :
  Viewer.handleSave index title2 notes2 (Viewer.handleSave index title1 notes1 slides)
  = Viewer.handleSave index title2 notes2 slides.
Proof.
  unfold Viewer.handleSave. apply list_eq. intros i.
  rewrite !list_lookup_imap. destruct (slides !! i); cbn; [|done].
  by case_decide.
Qed.


(** X8: the markdown export does not depend on the images: after an
    image generation the download is the same text. *)
Theorem markdownContent_ignores_images generated index slides :
  markdownContent (Viewer.handleGenerateImage generated index slides)
  = markdownContent slides.
Proof.
  destruct generated as [url|e]; [|done].
  unfold markdownContent, Viewer.handleGenerateImage. f_equal.
  apply list_eq. intros i. rewrite !list_lookup_fmap, list_lookup_imap.
  destruct (slides !! i); cbn; [|done]. by case_decide.
Qed.

(** X9: the export of two decks put one after the other is the two
    exports with one horizontal rule between them; the export of no
    slide is the empty text. *)
Theorem markdownContent_app slides1 slides2 :
  slides1 <> [] -> slides2 <> [] ->
  markdownContent (slides1 ++ slides2)
  = markdownContent slides1
      +:+ (newline +:+ newline +:+ "---" +:+ newline +:+ newline)
      +:+ markdownContent slides2
  /\ markdownContent [] = "".
Proof.
  intros H1 H2. split; [|done]. unfold markdownContent.
  rewrite fmap_app. apply StringFacts.join_app.
  - by destruct slides1.
  - by destruct slides2.
Qed.

End SlideViewerProperties.

(** ** The content generator and the sessions of the view layer *)

Module ServiceProperties.
Import Gemini Session.

(** X10: whatever the remote call and the parser do, the slide
    generator fulfils with an array that is not empty or rejects with
    its one message; the message about an invalid or empty structure is
    replaced like any other. *)
Theorem generateSlidesContent_outcomes trim jsonParse response :
  (exists first rest,
     generateSlidesContent trim jsonParse response = Ok (first :: rest))
  \/ generateSlidesContent trim jsonParse response = Throw generationFailed.
Proof.
  unfold generateSlidesContent, slidesBody.
  destruct response as [[text|]|e]; cbn; [|by right..].
  destruct (jsonParse (trim text)) as [[[|first rest]|]|e]; cbn;
    solve [left; eauto | by right].
Qed.

(** X11: the image generator fulfils with a JPEG data address or
    rejects with its one message. *)
Theorem generateImage_outcomes response :
  (exists url, generateImage response = Ok url /\ isJpegDataUrl url)
  \/ generateImage response = Throw imageFailed.
Proof.
  unfold generateImage, imageBody, isJpegDataUrl.
  destruct response as [[[|first rest]|]|e]; cbn; [by right| |by right..].
  destruct (image first) as [imageBytes|]; cbn;
    solve [left; eauto | by right].
Qed.

Lemma apply_imageIsGenerated slides action :
  Forall imageIsGenerated slides -> Forall imageIsGenerated (apply slides action).
Proof.
  intros Hall. rewrite Forall_lookup in Hall. apply Forall_lookup.
  intros i slide. destruct action as [index editedTitle editedNotes|index response];
    cbn.
  - unfold Viewer.handleSave. rewrite list_lookup_imap.
    destruct (slides !! i) as [old|] eqn:Hi; [|done]. cbn. intros [= <-].
    specialize (Hall i old Hi). by case_decide.
  - assert (Hcases : (exists url, generateImage response = Ok url
                                   /\ isJpegDataUrl url)
                      \/ exists e, generateImage response = Throw e).
    { unfold generateImage, imageBody, isJpegDataUrl.
      destruct response as [[[|first rest]|]|e]; cbn; [by eauto| |by eauto..].
      destruct (image first) as [imageBytes|]; cbn; [left|by eauto]; eauto. }
    destruct Hcases as [(url & -> & Hurl) | (e & ->)]; cbn.
    + rewrite list_lookup_imap.
      destruct (slides !! i) as [old|] eqn:Hi; [|done]. cbn. intros [= <-].
      specialize (Hall i old Hi). by case_decide.
    + apply Hall.
Qed.

(** X12: in a deck that was imported, every image a session of saves
    and image generations leaves on a slide is a JPEG data address of
    the image generator. *)
Theorem session_images_are_generated otherSelector order zip slides actions :
  Importer.parsePptx otherSelector order zip = Some (Ok slides) ->
  Forall imageIsGenerated (replay slides actions).
Proof.
  intros Hparse.
  assert (Hstart : Forall imageIsGenerated slides).
  { eapply Forall_impl; [by eapply ImporterFacts.parsePptx_slides|].
    by intros slide (slidePath & slideXml & _ & ->). }
  clear Hparse. unfold replay. revert slides Hstart.
  induction actions as [|action actions IH]; intros slides Hstart; [done|].
  cbn. by apply IH, apply_imageIsGenerated.
Qed.

End ServiceProperties.

(** ** The application shell *)

Module AppProperties.
Import App.

(** X13: once an import has settled the loader is gone and the view
    mode is the one from before; after a success the application shows
    the imported slides, which are never none, and after a failure the
    message of the exception, the earlier deck being discarded. *)
Theorem import_shows_slides_or_error
    domExceptionMessage otherSelector order zip fileName st outcome :
  Importer.parsePptx otherSelector order zip = Some outcome ->
  (forall e, outcome = Throw e -> messageOf domExceptionMessage e <> "") ->
  let st' := handleImportSlides domExceptionMessage fileName outcome st in
  isLoading st' = false
  /\ viewMode st' = viewMode st
  /\ topic st' = "Imported from " +:+ fileName
  /\ match outcome with
     | Ok imported =>
         slides st' = imported
         /\ renderContent st'
            = match viewMode st with
              | PLAYER => VideoPlayerView imported
              | EDITOR => SlideViewerView imported
              end
     | Throw e =>
         slides st' = []
         /\ renderContent st' = ErrorBox (messageOf domExceptionMessage e)
     end.
Proof.
  intros Hparse Hmessage. cbn.
  destruct outcome as [imported|e]; cbn; repeat split.
  - assert (Hsome : imported <> []).
    { unfold Importer.parsePptx in Hparse.
      destruct (zip !! Importer.presentationPath); [|done].
      destruct (Promise.all _ _) as [[results|?]|]; [|done..].
      destruct (decide _) as [|Hlen]; [done|]. injection Hparse as <-.
      intros Hnil. by rewrite Hnil in Hlen. }
    unfold renderContent. cbn. destruct imported; [done|].
    rewrite decide_True by (cbn; lia). done.
  - unfold renderContent. cbn. specialize (Hmessage e eq_refl).
    by destruct (messageOf domExceptionMessage e).
Qed.

(** X14: a generation with a topic that is not blank ends with the
    generated slides on display, or with the one message of the slide
    generator; a blank topic only sets the request to enter one. *)
Theorem generation_shows_slides_or_error
    trim domExceptionMessage jsonParse newTopic response st :
  let generated := Gemini.generateSlidesContent trim jsonParse response in
  let st' := handleGenerateSlides trim domExceptionMessage newTopic generated st in
  if decide (trim newTopic = "")
  then slides st' = slides st
       /\ isLoading st' = isLoading st
       /\ error st' = Some "Please enter a topic."
  else isLoading st' = false
       /\ viewMode st' = viewMode st
       /\ match generated with
          | Ok new =>
              renderContent st'
              = match viewMode st with
                | PLAYER => VideoPlayerView new
                | EDITOR => SlideViewerView new
                end
          | Throw _ =>
              slides st' = []
              /\ renderContent st'
                 = ErrorBox "Failed to generate presentation slides. The AI model may be temporarily unavailable or the topic could not be processed."
          end.
Proof.
  cbn. unfold handleGenerateSlides.
  destruct (decide (trim newTopic = "")) as [Hblank|Hfilled]; [done|].
  unfold Gemini.generateSlidesContent, Gemini.slidesBody.
  destruct response as [[text|]|e]; cbn; [|done..].
  destruct (jsonParse (trim text)) as [[[|first rest]|]|e']; by cbn.
Qed.

End AppProperties.

(** ** More on the importer *)

Module ImporterExtras.
Import Dom Importer Reading Manifest ImporterFacts.

Lemma settle_length {A} order (promises : list (Result A)) values remaining result :
  Promise.settle order promises values remaining = Some (Ok result) ->
  length result = length values.
Proof.
  revert values remaining.
  induction order as [|index order' IH]; intros values remaining Hres; [done|].
  cbn in Hres.
  destruct (promises !! index) as [[x|e]|];
    destruct (values !! index) as [[y|]|];
    try exact (IH _ _ Hres); try done.
  destruct remaining as [|[|k]].
  - rewrite (IH _ _ Hres). apply length_insert.
  - injection Hres as <-. apply length_insert.
  - rewrite (IH _ _ Hres). apply length_insert.
Qed.

Lemma length_omap_le {A B} (f : A -> option B) (l : list A) :
  length (omap f l) <= length l.
Proof.
  induction l as [|x l IH]; [done|]. cbn. destruct (f x); cbn; lia.
Qed.

(** X15: an import that returns never returns an empty sequence, and
    never more slides than the manifest has references, whatever the
    completion order. *)
Theorem parsePptx_result_is_bounded otherSelector order zip slides :
  parsePptx otherSelector order zip = Some (Ok slides) ->
  exists presentationXml,
    zip !! presentationPath = Some presentationXml
    /\ 0 < length slides <= length (slideIdNodes presentationXml).
Proof.
  unfold parsePptx. intros Hparse.
  destruct (zip !! presentationPath) as [presentationXml|]; [|done].
  exists presentationXml. split; [done|].
  destruct (Promise.all _ _) as [[results|e]|] eqn:Hall; [|done..].
  destruct (decide _) as [|Hlen]; [done|]. injection Hparse as <-.
  split; [lia|].
  etransitivity; [apply length_omap_le|].
  unfold Promise.all in Hall.
  destruct (slideTask otherSelector zip <$> slideIdNodes presentationXml)
    as [|task tasks] eqn:Htasks.
  - injection Hall as <-. cbn. lia.
  - rewrite <- Htasks in Hall.
    destruct (Promise.settle _ _ _ _) as [[values|e]|] eqn:Hsettle; [|done..].
    injection Hall as <-.
    etransitivity; [apply length_omap_le|].
    rewrite (settle_length _ _ _ _ _ Hsettle), length_replicate.
    by rewrite length_fmap.
Qed.

Lemma firstRejection_uniform {A} order (promises : list (Result A)) e :
  (forall i e', promises !! i = Some (Throw e') -> e' = e) ->
  (exists i e', i ∈ order /\ promises !! i = Some (Throw e')) ->
  Promise.firstRejection order promises = Some e.
Proof.
  intros Hsame. induction order as [|j order' IH]; intros (i & e' & Hin & Hi).
  - by apply elem_of_nil in Hin.
  - cbn. destruct (promises !! j) as [[x|e'']|] eqn:Hj.
    + apply IH. exists i, e'. split; [|done].
      apply elem_of_cons in Hin as [->|Hin]; [congruence|done].
    + by rewrite (Hsame _ _ Hj).
    + apply IH. exists i, e'. split; [|done].
      apply elem_of_cons in Hin as [->|Hin]; [congruence|done].
Qed.

Lemma slideTask_no_index otherSelector zip node :
  zip !! presentationRelsPath = None ->
  slideTask otherSelector zip node
  = if hasIdentifier node then Throw noRelationships else Ok None.
Proof.
  intros Hrels. unfold slideTask, hasIdentifier. rewrite Hrels.
  destruct (Js.truthy (getAttribute "r:id" node)) as [rId|].
  - by rewrite bool_decide_eq_true_2 by eauto.
  - rewrite bool_decide_eq_false_2; [done|]. by intros [? ?].
Qed.

(** X16: without manifest relationship index the import fails, in every
    completion order with the same error: that the index was not found
    if some reference carries an identifier, that there are no slides
    if none does, the index then never being asked for. *)
Theorem import_without_index otherSelector order zip presentationXml :
  zip !! presentationPath = Some presentationXml ->
  zip !! presentationRelsPath = None ->
  Permutation order (seq 0 (length (slideIdNodes presentationXml))) ->
  parsePptx otherSelector order zip
  = Some (Throw (if existsb hasIdentifier (slideIdNodes presentationXml)
                 then noRelationships
                 else noSlides)).
Proof.
  intros Hzip Hrels Hperm.
  rewrite (parsePptx_spec _ _ _ _ Hzip Hperm).
  rewrite (ImporterProperties.slidesFrom_without_index _ _ _ Hrels).
  destruct (existsb hasIdentifier (slideIdNodes presentationXml)) eqn:Hany.
  - rewrite (firstRejection_uniform _ _ noRelationships); [done| |].
    + intros i e'. rewrite list_lookup_fmap.
      destruct (slideIdNodes presentationXml !! i) as [node|]; [|done].
      cbn. rewrite (slideTask_no_index _ _ _ Hrels).
      destruct (hasIdentifier node); congruence.
    + apply existsb_exists in Hany as (node & Hnode & Hid).
      apply list_elem_of_In, list_elem_of_lookup in Hnode as [i Hi].
      exists i, noRelationships. split.
      * rewrite Hperm. apply elem_of_seq. apply lookup_lt_Some in Hi. lia.
      * rewrite list_lookup_fmap, Hi. cbn.
        by rewrite (slideTask_no_index _ _ _ Hrels), Hid.
  - rewrite firstRejection_fulfilled; [done|].
    apply Forall_fmap, Forall_forall. intros node Hnode. cbn.
    rewrite (slideTask_no_index _ _ _ Hrels).
    destruct (hasIdentifier node) eqn:Hid; [|eauto].
    assert (existsb hasIdentifier (slideIdNodes presentationXml) = true);
      [|congruence].
    apply existsb_exists. exists node. split; [|done].
    by apply list_elem_of_In.
Qed.

Lemma split_no_separator c s :
  Js.contains c s = false -> Js.split c s = [s].
Proof.
  induction s as [|a s IH]; [done|]. cbn.
  destruct (decide (a = c)); [done|]. intros H. by rewrite IH.
Qed.

Lemma last_split_directory c directory file :
  Js.contains c file = false ->
  last (Js.split c (directory +:+ String c file)) = Some file
  /\ 2 <= length (Js.split c (directory +:+ String c file)).
Proof.
  intros Hfile. induction directory as [|a directory [IHlast IHlen]].
  - rewrite StringFacts.append_nil_l. cbn. rewrite decide_True by done.
    rewrite (split_no_separator _ _ Hfile). by split.
  - rewrite StringFacts.append_cons. cbn [Js.split].
    destruct (decide (a = c)).
    + destruct (Js.split c (directory +:+ String c file)) as [|seg segs];
        [cbn in IHlen; lia|].
      split; [exact IHlast|cbn; lia].
    + destruct (Js.split c (directory +:+ String c file)) as [|seg [|seg' segs]];
        [cbn in IHlen; lia..|].
      split; [exact IHlast|cbn; lia].
Qed.

(** X17: the relationship index of a slide is looked up by the file
    name of the slide alone, in the one directory of slide indexes,
    whatever directory the target of the slide names. *)
Theorem slideRelsPath_uses_file_name_only directory file :
  Js.contains Js.slash file = false ->
  slideRelsPath (directory +:+ "/" +:+ file)
    = "ppt/slides/_rels/" +:+ file +:+ ".rels"
  /\ slideRelsPath file = "ppt/slides/_rels/" +:+ file +:+ ".rels".
Proof.
  intros Hfile. unfold slideRelsPath, Js.pop. split.
  - change ("/" +:+ file) with (String Js.slash file).
    by rewrite (proj1 (last_split_directory _ directory _ Hfile)).
  - by rewrite (split_no_separator _ _ Hfile).
Qed.

Lemma plainIdentifiers_parse otherSelector zip :
  plainIdentifiers zip -> selectorsParse otherSelector zip.
Proof.
  intros Hplain presentationXml presRelsXml node rId Hzip Hnode Hid Hrels.
  rewrite (querySelectorById_plain _ _ _ (Hplain _ _ _ Hzip Hnode Hid)).
  eauto.
Qed.

(** X18: when no identifier of the manifest holds a quote, a backslash,
    a line break or a NUL, the import fails in exactly three cases: the
    manifest is absent, its relationship index is absent, or no
    reference yields a slide. *)
Theorem parsePptx_fails_in_three_cases otherSelector order zip :
  Permutation order (seq 0 (taskCount zip)) ->
  plainIdentifiers zip ->
  (exists e, parsePptx otherSelector order zip = Some (Throw e))
  <-> zip !! presentationPath = None
      \/ zip !! presentationRelsPath = None
      \/ exists presentationXml,
           zip !! presentationPath = Some presentationXml
           /\ slidesFrom otherSelector zip (slideIdNodes presentationXml) = [].
Proof.
  intros Hperm Hplain.
  apply ImporterProperties.parsePptx_fails_iff; [done|].
  by apply plainIdentifiers_parse.
Qed.

End ImporterExtras.

(** ** Voice commands *)

Module VoiceProperties.
Import Voice.

Lemma join_empty_cons x (l : list string) :
  Js.join "" (x :: l) = x +:+ Js.join "" l.
Proof. destruct l; [by rewrite StringFacts.append_nil_r|done]. Qed.

Lemma collect_spec fuel i results acc :
  length results - i <= fuel ->
  collect fuel i results acc
  = acc +:+ Js.join "" (transcript <$> filter (fun r => isFinal r = true)
                                             (drop i results)).
Proof.
  revert i acc. induction fuel as [|fuel IH]; intros i acc Hfuel.
  - rewrite drop_ge by lia. cbn. by rewrite StringFacts.append_nil_r.
  - cbn [collect]. destruct (results !! i) as [result|] eqn:Hi.
    + rewrite IH by lia. rewrite (drop_S _ _ _ Hi), filter_cons.
      destruct (isFinal result) eqn:Hfinal.
      * rewrite decide_True by done. rewrite fmap_cons, join_empty_cons.
        by rewrite StringFacts.append_assoc.
      * by rewrite decide_False by done.
    + apply lookup_ge_None in Hi. rewrite drop_ge by lia. cbn.
      by rewrite StringFacts.append_nil_r.
Qed.

(** X19: the transcript a recognition event is reduced to is made of the
    first alternatives of its final results from the result index on,
    in order and without separator; results before the index and
    results that are not final add nothing. *)
Theorem finalTranscript_of_final_results resultIndex results :
  finalTranscript resultIndex results
  = Js.join "" (transcript <$> filter (fun r => isFinal r = true)
                                      (drop resultIndex results)).
Proof.
  unfold finalTranscript. rewrite collect_spec by lia.
  apply StringFacts.append_nil_l.
Qed.

Section Commands.
Context {A : Type}.
Implicit Types (commands : list (string * A)).

(** The loop stops at the first entry whose key the transcript
    includes. *)
Lemma firstIncluded_position commands t key command :
  firstIncluded commands t = Some (key, command) ->
  exists p,
    commands !! p = Some (key, command)
    /\ Js.includes key t = true
    /\ forall q k c, q < p -> commands !! q = Some (k, c) ->
         Js.includes k t = false.
Proof.
  induction commands as [|[k c] commands IH]; [done|]. cbn.
  destruct (Js.includes k t) eqn:Hk.
  - intros [= -> ->]. exists 0. repeat split; [done|]. lia.
  - intros H. destruct (IH H) as (p & Hp & Hin & Hbefore).
    exists (S p). repeat split; [done..|].
    intros [|q] k' c' Hq; cbn; [by intros [= <- <-]|].
    apply Hbefore. lia.
Qed.

Lemma shadowed_at commands i j earlierKey earlierCommand key command t :
  NoDup (fst <$> commands) ->
  commands !! i = Some (earlierKey, earlierCommand) ->
  commands !! j = Some (key, command) ->
  i < j ->
  Js.includes earlierKey key = true ->
  forall run, firstIncluded commands t <> Some (key, run).
Proof.
  intros Hnodup Hi Hj Hlt Hpart run Hmatch.
  apply firstIncluded_position in Hmatch as (p & Hp & Hkey & Hbefore).
  assert (p = j) as ->.
  { eapply (NoDup_lookup _ _ _ key Hnodup);
      rewrite list_lookup_fmap; [by rewrite Hp|by rewrite Hj]. }
  specialize (Hbefore i _ _ Hlt Hi).
  by rewrite (StringFacts.includes_trans _ _ _ Hpart Hkey) in Hbefore.
Qed.

(** [Object.keys] lists every property once. *)
Lemma insert_Permutation (property : string * A) sorted :
  JsObject.insert property sorted ≡ₚ property :: sorted.
Proof.
  induction sorted as [|next rest IH]; [done|]. cbn.
  destruct (_ <? _)%N; [done|].
  rewrite IH. apply perm_swap.
Qed.

Lemma ascending_Permutation commands :
  JsObject.ascending commands ≡ₚ commands.
Proof.
  induction commands as [|property rest IH]; [done|]. cbn.
  by rewrite insert_Permutation, IH.
Qed.

Lemma ownProperties_Permutation commands :
  JsObject.ownProperties commands ≡ₚ commands.
Proof.
  unfold JsObject.ownProperties. rewrite ascending_Permutation.
  induction commands as [|property rest IH]; [done|].
  rewrite !filter_cons.
  destruct (JsObject.arrayIndex property.1) as [value|] eqn:Hindex.
  - rewrite decide_True by eauto. rewrite decide_False by done.
    cbn. by rewrite IH.
  - rewrite decide_False by (by intros [? ?]). rewrite decide_True by done.
    rewrite <- Permutation_middle. by rewrite IH.
Qed.

(** Without array indices among the keys the order is the one of
    creation. *)
Lemma ownProperties_written_order commands :
  Forall (fun property => JsObject.arrayIndex property.1 = None) commands ->
  JsObject.ownProperties commands = commands.
Proof.
  intros Hnone. unfold JsObject.ownProperties.
  assert (Hindices : filter (fun property : string * A =>
                               is_Some (JsObject.arrayIndex property.1))
                            commands = []).
  { induction Hnone as [|property rest Hproperty _ IH]; [done|].
    rewrite filter_cons, decide_False; [done|].
    rewrite Hproperty. by intros [? ?]. }
  rewrite Hindices. cbn.
  induction Hnone as [|property rest Hproperty _ IH]; [done|].
  rewrite filter_cons, decide_True by done. f_equal. apply IH.
  rewrite filter_cons, decide_False in Hindices; [done|].
  rewrite Hproperty. by intros [? ?].
Qed.

(** X20: an entry of a command table is never run when an entry that
    [Object.keys] lists before it has a key that is part of its own
    key: every transcript that includes the longer key includes the
    shorter one, and the loop stops there. *)
Theorem shadowed_command_never_runs
    commands before earlierKey earlierCommand between key command after t :
  NoDup (fst <$> commands) ->
  JsObject.ownProperties commands
  = before ++ (earlierKey, earlierCommand)
           :: between ++ (key, command) :: after ->
  Js.includes earlierKey key = true ->
  forall run, firstMatch commands t <> Some (key, run).
Proof.
  intros Hnodup Hcommands Hpart. unfold firstMatch.
  apply (shadowed_at (JsObject.ownProperties commands) (length before)
           (length before + S (length between))
           earlierKey earlierCommand key command); [| | |lia|done].
  - by rewrite ownProperties_Permutation.
  - rewrite Hcommands. by apply list_lookup_middle.
  - rewrite Hcommands, lookup_app_r by lia.
    replace (length before + S (length between) - length before)
      with (S (length between)) by lia.
    cbn. by apply list_lookup_middle.
Qed.

End Commands.

(** The keys of the player are written once each, and none is an array
    index: [Object.keys] lists them as they are written. *)
Lemma commands_NoDup : NoDup (fst <$> VideoPlayer.commands).
Proof.
  apply (bool_decide_unpack (NoDup (fst <$> VideoPlayer.commands))).
  by vm_compute.
Qed.

Lemma commands_written_order :
  JsObject.ownProperties VideoPlayer.commands = VideoPlayer.commands.
Proof. apply ownProperties_written_order. repeat constructor. Qed.

Lemma firstMatch_commands t :
  firstMatch VideoPlayer.commands t = firstIncluded VideoPlayer.commands t.
Proof. unfold firstMatch. by rewrite commands_written_order. Qed.

Lemma firstIncluded_head {A} key (command : A) rest t :
  Js.includes key t = true ->
  firstIncluded ((key, command) :: rest) t = Some (key, command).
Proof. intros H. cbn. by rewrite H. Qed.

(** X21: in the player the entries [replay], [restart], [next slide] and
    [previous slide] are never run, for no transcript; a transcript
    with [replay] or [restart] in it runs the entry [play] or [start],
    which only sets the playing flag. *)
Theorem replay_is_never_heard t :
  (forall key run,
     key ∈ ["replay"; "restart"; "next slide"; "previous slide"] ->
     firstMatch VideoPlayer.commands t <> Some (key, run))
  /\ (Js.includes "replay" t = true \/ Js.includes "restart" t = true ->
      exists key,
        firstMatch VideoPlayer.commands t
        = Some (key, VideoPlayer.SetIsPlaying true)).
Proof.
  rewrite firstMatch_commands. split.
  - intros key run Hkey.
    repeat (apply elem_of_cons in Hkey as [->|Hkey]);
      [| | | |by apply elem_of_nil in Hkey].
    + by apply (shadowed_at VideoPlayer.commands 0 15 "play"
                  (VideoPlayer.SetIsPlaying true) "replay"
                  VideoPlayer.ReplayIfFinished);
        [apply commands_NoDup|..|lia|].
    + by apply (shadowed_at VideoPlayer.commands 1 16 "start"
                  (VideoPlayer.SetIsPlaying true) "restart"
                  VideoPlayer.ReplayIfFinished);
        [apply commands_NoDup|..|lia|].
    + by apply (shadowed_at VideoPlayer.commands 6 7 "next"
                  (VideoPlayer.SlideChange 1) "next slide"
                  (VideoPlayer.SlideChange 1));
        [apply commands_NoDup|..|lia|].
    + by apply (shadowed_at VideoPlayer.commands 8 10 "previous"
                  (VideoPlayer.SlideChange (-1)) "previous slide"
                  (VideoPlayer.SlideChange (-1)));
        [apply commands_NoDup|..|lia|].
  - intros Hheard.
    destruct (Js.includes "play" t) eqn:Hplay.
    + exists "play". by apply firstIncluded_head.
    + destruct Hheard as [Hreplay|Hrestart].
      * assert (Js.includes "play" t = true); [|congruence].
        by apply (StringFacts.includes_trans _ "replay").
      * assert (Js.includes "start" t = true) as Hstart
          by by apply (StringFacts.includes_trans _ "restart").
        exists "start". unfold VideoPlayer.commands. cbn [firstIncluded].
        by rewrite Hplay, Hstart.
Qed.

End VoiceProperties.

(** ** The player *)

Module PlayerProperties.
Import Voice VideoPlayer Playback.

Lemma item_inDeck slides index :
  inDeck slides index -> is_Some (SlideViewer.item slides index).
Proof.
  unfold inDeck, SlideViewer.item. intros Hin.
  rewrite decide_True by lia. apply lookup_lt_is_Some. lia.
Qed.

Lemma handleSlideChange_cases slides captured nextIndex st :
  handleSlideChange slides captured nextIndex st = (st, None)
  \/ (inDeck slides nextIndex
      /\ exists st',
           handleSlideChange slides captured nextIndex st
           = (st', Some (ExitTimer nextIndex))
           /\ currentSlideIndex st' = currentSlideIndex st
           /\ slideContent st' = slideContent st
           /\ isFinished st' = isFinished st
           /\ isPlaying st' = isPlaying st
           /\ animationState st' = exiting).
Proof.
  unfold handleSlideChange, inDeck.
  destruct (isTransitioning captured); [by left|].
  repeat case_bool_decide; cbn; [by left..|].
  right. split; [lia|]. eexists. by repeat split.
Qed.

Lemma schedule_consistent slides timers st timer :
  inDeck slides (currentSlideIndex st) ->
  slideContent st = SlideViewer.item slides (currentSlideIndex st) ->
  Forall (timerInDeck slides) timers ->
  (forall t, timer = Some t -> timerInDeck slides t) ->
  consistent slides (schedule timers (st, timer)).
Proof.
  intros Hindex Hcontent Htimers Htimer.
  split; [done|split; [done|]]. cbn.
  apply Forall_app. split; [done|].
  destruct timer as [t|]; [|done]. apply Forall_singleton. by apply Htimer.
Qed.

Lemma handleSlideChange_consistent slides captured nextIndex w :
  consistent slides w ->
  consistent slides
    (schedule (timers w) (handleSlideChange slides captured nextIndex (state w))).
Proof.
  intros (Hindex & Hcontent & Htimers).
  destruct (handleSlideChange_cases slides captured nextIndex (state w))
    as [-> | (Hin & st' & -> & Hi & Hc & _)].
  - apply schedule_consistent; [done..|]. by intros t [=].
  - apply schedule_consistent; [by rewrite Hi|by rewrite Hc, Hi|done|].
    by intros t [= <-].
Qed.

Lemma step_consistent slides w e :
  slides <> [] -> consistent slides w -> consistent slides (step slides w e).
Proof.
  intros Hslides Hw.
  assert (Hfirst : inDeck slides 0).
  { unfold inDeck. destruct slides; [done|]. cbn. lia. }
  destruct e as [captured t| | | |position]; cbn [step].
  - destruct (firstMatch commands t) as [[key command]|]; [|done].
    destruct command as [value| |delta|value|]; cbn [run].
    + destruct Hw as (Hindex & Hcontent & Htimers).
      apply schedule_consistent; [done..|]. by intros ? [=].
    + destruct Hw as (Hindex & Hcontent & Htimers).
      apply schedule_consistent; [done..|]. by intros ? [=].
    + by apply handleSlideChange_consistent.
    + destruct Hw as (Hindex & Hcontent & Htimers).
      apply schedule_consistent; [done..|]. by intros ? [=].
    + destruct Hw as (Hindex & Hcontent & Htimers).
      destruct (isFinished captured);
        (apply schedule_consistent; [done..|]; by intros ? [=]).
  - destruct (narrating (state w)); [|done]. unfold advanceSlide.
    case_bool_decide.
    + by apply handleSlideChange_consistent.
    + destruct Hw as (Hindex & Hcontent & Htimers).
      apply schedule_consistent; [done..|]. by intros ? [=].
  - destruct (isFinished (state w) || isTransitioning (state w)); [done|].
    destruct Hw as (Hindex & Hcontent & Htimers).
    apply schedule_consistent; [done..|]. by intros ? [=].
  - destruct (isFinished (state w)); [|done].
    destruct Hw as (Hindex & Hcontent & Htimers).
    apply schedule_consistent; [done..|]. by intros ? [=].
  - destruct (timers w !! position) as [timer|] eqn:Hposition; [|done].
    destruct Hw as (Hindex & Hcontent & Htimers).
    assert (Htimer : timerInDeck slides timer).
    { rewrite Forall_lookup in Htimers. by eapply Htimers. }
    destruct timer as [nextIndex|]; cbn [fire].
    + apply schedule_consistent; [done|done|by apply Forall_delete|].
      by intros ? [= <-].
    + apply schedule_consistent; [done|done|by apply Forall_delete|].
      by intros ? [=].
Qed.

Lemma foldl_consistent slides events w :
  slides <> [] -> consistent slides w ->
  consistent slides (foldl (step slides) w events).
Proof.
  intros Hslides. revert w.
  induction events as [|e events IH]; intros w Hw; [done|].
  cbn. by apply IH, step_consistent.
Qed.

(** X22: whatever is said, pressed or timed out, and in whatever order,
    the player of a deck that is not empty is at an index of the deck
    and holds the slide at that index; it never goes blank. *)
Theorem player_holds_the_current_slide slides events :
  slides <> [] ->
  let st := state (run_events slides events) in
  (0 <= currentSlideIndex st < Z.of_nat (length slides))%Z
  /\ slideContent st = SlideViewer.item slides (currentSlideIndex st)
  /\ is_Some (slideContent st).
Proof.
  intros Hslides.
  destruct (foldl_consistent slides events (start slides) Hslides)
    as (Hindex & Hcontent & _).
  { repeat split; cbn; [lia|destruct slides; [done|cbn; lia]|done]. }
  fold (run_events slides events) in Hindex, Hcontent.
  split; [exact Hindex|]. split; [exact Hcontent|].
  rewrite Hcontent. by apply item_inDeck.
Qed.

(** No transcript runs an entry that replays. *)
Lemma firstMatch_never_replays t key :
  firstMatch commands t <> Some (key, ReplayIfFinished).
Proof.
  rewrite VoiceProperties.firstMatch_commands. intros Hmatch.
  destruct (VoiceProperties.firstIncluded_position _ _ _ _ Hmatch)
    as (p & Hp & _).
  assert (Hlt : p < 17) by (by apply lookup_lt_Some in Hp).
  repeat (destruct p as [|p]; [cbn in Hp; try discriminate Hp|try lia]).
  - injection Hp as <-. revert Hmatch.
    by apply (VoiceProperties.shadowed_at commands 0 15 "play"
                (SetIsPlaying true) "replay" ReplayIfFinished);
      [apply VoiceProperties.commands_NoDup|..|lia|].
  - injection Hp as <-. revert Hmatch.
    by apply (VoiceProperties.shadowed_at commands 1 16 "start"
                (SetIsPlaying true) "restart" ReplayIfFinished);
      [apply VoiceProperties.commands_NoDup|..|lia|].
Qed.

Lemma handleSlideChange_isFinished slides captured nextIndex st :
  isFinished (handleSlideChange slides captured nextIndex st).1 = isFinished st.
Proof.
  by destruct (handleSlideChange_cases slides captured nextIndex st)
    as [-> | (_ & st' & -> & _ & _ & Hfinished & _)].
Qed.

Lemma step_stays_finished slides w e :
  e <> ReplayPressed ->
  isFinished (state w) = true ->
  isFinished (state (step slides w e)) = true.
Proof.
  intros He Hw. destruct e as [captured t| | | |position]; cbn [step].
  - destruct (firstMatch commands t) as [[key command]|] eqn:Hmatch; [|done].
    destruct command as [value| |delta|value|]; cbn; [done..| |done|].
    + by rewrite handleSlideChange_isFinished.
    + by apply firstMatch_never_replays in Hmatch.
  - unfold narrating. rewrite Hw.
    by rewrite !andb_false_r, ?andb_false_l.
  - by rewrite Hw.
  - done.
  - destruct (timers w !! position) as [[nextIndex|]|]; by cbn.
Qed.

(** X23: a presentation that has finished stays finished until the
    replay button is pressed: no timer, no press of the play button, and
    no voice command ends that, the two spoken commands for replaying
    included. *)
Theorem finished_until_replay_is_pressed slides w events :
  isFinished (state w) = true ->
  ReplayPressed ∉ events ->
  isFinished (state (foldl (step slides) w events)) = true.
Proof.
  revert w. induction events as [|e events IH]; intros w Hw Hevents; [done|].
  apply not_elem_of_cons in Hevents as [He Hevents].
  cbn. apply IH; [|done]. by apply step_stays_finished.
Qed.

Lemma item_of_nat slides (index : nat) :
  SlideViewer.item slides (Z.of_nat index) = slides !! index.
Proof.
  unfold SlideViewer.item. rewrite decide_True by lia. by rewrite Nat2Z.id.
Qed.

Lemma narration_speaking slides index :
  S index < length slides ->
  foldl (step slides) (speaking slides index) narration
  = speaking slides (S index).
Proof.
  intros Hnext.
  assert (Hhere : is_Some (slides !! index))
    by (apply lookup_lt_is_Some; lia).
  unfold narration. cbn [foldl]. unfold step at 3. cbn [state speaking].
  unfold narrating. cbn. rewrite bool_decide_eq_true_2 by done. cbn.
  unfold advanceSlide, handleSlideChange. cbn.
  rewrite (bool_decide_eq_true_2 (Z.of_nat index < _)%Z) by lia.
  rewrite (bool_decide_eq_false_2 (Z.of_nat index + 1 < 0)%Z) by lia.
  rewrite (bool_decide_eq_false_2 (Z.of_nat index + 1 >= _)%Z) by lia.
  cbn. unfold speaking, schedule. cbn.
  replace (Z.of_nat index + 1)%Z with (Z.of_nat (S index)) by lia.
  by rewrite item_of_nat.
Qed.

Lemma autoplay_S count : autoplay (S count) = autoplay count ++ narration.
Proof.
  unfold autoplay.
  change (replicate (S count) narration)
    with (narration :: replicate count narration).
  by rewrite replicate_cons_app, concat_app.
Qed.

(** X24: left alone, the player speaks the notes of every slide in the
    order of the deck: after as many rounds of utterance and transition
    as the index of a slide, it is at that slide, speaking, with no
    timer pending; at the last slide the end of the utterance finishes
    the presentation and stops the play, the slide staying the last
    one. *)
Theorem autoplay_narrates_every_slide slides index :
  index < length slides ->
  run_events slides (autoplay index) = speaking slides index
  /\ narrating (state (speaking slides index)) = true
  /\ (S index = length slides ->
      let final := run_events slides (autoplay index ++ [UtteranceEnded]) in
      isFinished (state final) = true
      /\ isPlaying (state final) = false
      /\ currentSlideIndex (state final) = Z.of_nat index
      /\ timers final = []).
Proof.
  intros Hindex.
  assert (Hrun : run_events slides (autoplay index) = speaking slides index).
  { clear -Hindex. induction index as [|index IH].
    - reflexivity.
    - unfold run_events in *. rewrite autoplay_S, foldl_app, IH by lia.
      by apply narration_speaking. }
  assert (Hnarrating : narrating (state (speaking slides index)) = true).
  { unfold narrating. cbn. rewrite bool_decide_eq_true_2; [done|].
    by apply lookup_lt_is_Some. }
  split; [done|]. split; [done|].
  intros Hlast. unfold run_events in *. rewrite foldl_app, Hrun.
  cbn [foldl step]. rewrite Hnarrating.
  unfold advanceSlide. cbn.
  rewrite bool_decide_eq_false_2 by lia. done.
Qed.

End PlayerProperties.

(** ** The properties on sample inputs *)

Module SampleProperties.
Import Dom Importer Reading Manifest Decks Samples.

Local Open Scope Z_scope.

Lemma navigation_stays_in_deck_witness :
  (0 <= SlideViewer.goToNext lecture 2 < Z.of_nat (length lecture)
   /\ is_Some (SlideViewer.item lecture (SlideViewer.goToNext lecture 2)))
  /\ (0 <= SlideViewer.goToPrevious lecture 2 < Z.of_nat (length lecture)
      /\ is_Some (SlideViewer.item lecture (SlideViewer.goToPrevious lecture 2))).
Proof.
  apply (SlideViewerProperties.navigation_stays_in_deck lecture 2).
  cbn. lia.
Defined.

Lemma navigation_round_trip_witness :
  SlideViewer.goToPrevious lecture (SlideViewer.goToNext lecture 2) = 2
  /\ SlideViewer.goToNext lecture (SlideViewer.goToPrevious lecture 2) = 2.
Proof.
  apply (SlideViewerProperties.navigation_round_trip lecture 2).
  cbn. lia.
Defined.

Lemma navigation_cycles_witness :
  Nat.iter (length lecture) (SlideViewer.goToNext lecture) 1 = 1.
Proof.
  apply (SlideViewerProperties.navigation_cycles lecture 1).
  cbn. lia.
Defined.

Local Close Scope Z_scope.

Lemma markdownContent_app_witness :
  Viewer.markdownContent ([noted "First"] ++ [noted "Second"; noted "Third"])
  = Viewer.markdownContent [noted "First"]
      +:+ (Viewer.newline +:+ Viewer.newline +:+ "---"
           +:+ Viewer.newline +:+ Viewer.newline)
      +:+ Viewer.markdownContent [noted "Second"; noted "Third"]
  /\ Viewer.markdownContent [] = "".
Proof.
  apply (SlideViewerProperties.markdownContent_app
           [noted "First"] [noted "Second"; noted "Third"]);
    discriminate.
Defined.

Lemma session_images_are_generated_witness :
  Forall Session.imageIsGenerated
    (Session.replay lecture
       [ Session.Save 0 "Rome" "Welcome";
         Session.GenerateImage 1 (oneImage "AAAA");
         Session.GenerateImage 2 (Throw (Error "quota")) ]).
Proof.
  apply (ServiceProperties.session_images_are_generated
           refuse [2; 0; 1] besideDeck lecture).
  vm_compute. reflexivity.
Defined.

Lemma import_shows_slides_or_error_witness :
  let st' := App.handleImportSlides domExceptionMessage "rome.pptx"
               (Throw (SyntaxError (relationshipByIdText quoteId)))
               App.initial in
  App.isLoading st' = false
  /\ App.viewMode st' = App.EDITOR
  /\ App.topic st' = "Imported from rome.pptx"
  /\ App.slides st' = []
  /\ App.renderContent st'
     = App.ErrorBox (domExceptionMessage (relationshipByIdText quoteId)).
Proof.
  apply (AppProperties.import_shows_slides_or_error
           domExceptionMessage refuse [0; 1] quoteDeck "rome.pptx" App.initial
           (Throw (SyntaxError (relationshipByIdText quoteId)))).
  - vm_compute. reflexivity.
  - intros e [= <-]. discriminate.
Defined.

Lemma parsePptx_result_is_bounded_witness :
  exists presentationXml,
    besideDeck !! presentationPath = Some presentationXml
    /\ 0 < length lecture <= length (slideIdNodes presentationXml).
Proof.
  apply (ImporterExtras.parsePptx_result_is_bounded refuse [2; 0; 1] besideDeck).
  vm_compute. reflexivity.
Defined.

Lemma import_without_index_witness :
  parsePptx refuse [1; 2; 0] unindexedDeck
  = Some (Throw (if existsb hasIdentifier
                      (slideIdNodes
                         (presentation [sldId "rId2"; sldId "rId3"; sldId "rId4"]))
                 then noRelationships
                 else noSlides)).
Proof.
  apply (ImporterExtras.import_without_index refuse [1; 2; 0] unindexedDeck
           (presentation [sldId "rId2"; sldId "rId3"; sldId "rId4"])).
  - vm_compute. reflexivity.
  - vm_compute. reflexivity.
  - change (Permutation [1; 2; 0] [0; 1; 2]).
    apply (Permutation_cons_app [0] [2] 1).
    apply (Permutation_cons_app [0] [] 2). reflexivity.
Defined.

Lemma slideRelsPath_uses_file_name_only_witness :
  slideRelsPath ("slides" +:+ "/" +:+ "slide1.xml")
    = "ppt/slides/_rels/" +:+ "slide1.xml" +:+ ".rels"
  /\ slideRelsPath "slide1.xml" = "ppt/slides/_rels/" +:+ "slide1.xml" +:+ ".rels".
Proof.
  apply (ImporterExtras.slideRelsPath_uses_file_name_only "slides" "slide1.xml").
  reflexivity.
Defined.

Lemma parsePptx_fails_in_three_cases_witness :
  (exists e, parsePptx refuse [2; 0; 1] besideDeck = Some (Throw e))
  <-> besideDeck !! presentationPath = None
      \/ besideDeck !! presentationRelsPath = None
      \/ exists presentationXml,
           besideDeck !! presentationPath = Some presentationXml
           /\ slidesFrom refuse besideDeck (slideIdNodes presentationXml) = [].
Proof.
  apply (ImporterExtras.parsePptx_fails_in_three_cases refuse [2; 0; 1] besideDeck).
  - change (Permutation [2; 0; 1] [0; 1; 2]).
    apply (Permutation_cons_app [0; 1] [] 2). reflexivity.
  - intros presentationXml node rId Hzip Hnode Hid.
    vm_compute in Hzip. injection Hzip as <-.
    vm_compute in Hnode.
    repeat (apply elem_of_cons in Hnode as [->|Hnode]);
      [..|by apply elem_of_nil in Hnode];
      vm_compute in Hid; injection Hid as <-; reflexivity.
Defined.

Lemma shadowed_command_never_runs_witness :
  Voice.firstMatch table "please stop talking" = Some ("stop", 1)
  /\ Voice.firstMatch table "please stop talking" <> Some ("stop talking", 3).
Proof.
  split; [reflexivity|].
  apply (VoiceProperties.shadowed_command_never_runs table
           [] "stop" 1 [("next", 2)] "stop talking" 3 []).
  - apply (bool_decide_unpack (NoDup (fst <$> table))). vm_compute. exact I.
  - reflexivity.
  - reflexivity.
Defined.

(** Keys that are array indices are listed first, in ascending numeric
    order: here [01], written first and part of [101], does not shadow
    it. *)
Lemma integer_keys_are_listed_first :
  JsObject.arrayIndex "01" = None
  /\ JsObject.arrayIndex "101" = Some 101%N
  /\ JsObject.arrayIndex "4294967294" = Some 4294967294%N
  /\ JsObject.arrayIndex "4294967295" = None
  /\ JsObject.ownProperties numbered = [("7", 3); ("101", 2); ("01", 1)]
  /\ Voice.firstMatch numbered "101" = Some ("101", 2).
Proof. repeat split; by vm_compute. Qed.

Lemma player_holds_the_current_slide_witness :
  let st := VideoPlayer.state
              (VideoPlayer.run_events lecture
                 [ VideoPlayer.Heard (VideoPlayer.initial lecture) "next";
                   VideoPlayer.Heard (VideoPlayer.initial lecture) "next please";
                   VideoPlayer.TimerFired 1;
                   VideoPlayer.UtteranceEnded;
                   VideoPlayer.TimerFired 0;
                   VideoPlayer.PlayPausePressed;
                   VideoPlayer.TimerFired 7 ]) in
  (0 <= VideoPlayer.currentSlideIndex st < Z.of_nat (length lecture))%Z
  /\ VideoPlayer.slideContent st
     = SlideViewer.item lecture (VideoPlayer.currentSlideIndex st)
  /\ is_Some (VideoPlayer.slideContent st).
Proof.
  apply (PlayerProperties.player_holds_the_current_slide lecture).
  discriminate.
Defined.

Lemma finished_until_replay_is_pressed_witness :
  VideoPlayer.isFinished
    (VideoPlayer.state
       (foldl (VideoPlayer.step [noted "First"]) finishedPlayer
          [ VideoPlayer.Heard (VideoPlayer.state finishedPlayer) "replay";
            VideoPlayer.Heard (VideoPlayer.state finishedPlayer) "restart now";
            VideoPlayer.PlayPausePressed;
            VideoPlayer.UtteranceEnded;
            VideoPlayer.TimerFired 0 ]))
  = true.
Proof.
  apply (PlayerProperties.finished_until_replay_is_pressed [noted "First"]).
  - reflexivity.
  - rewrite !not_elem_of_cons. repeat split; try discriminate.
    apply not_elem_of_nil.
Defined.

Lemma autoplay_narrates_every_slide_witness :
  VideoPlayer.run_events lecture (Playback.autoplay 2)
    = Playback.speaking lecture 2
  /\ VideoPlayer.narrating (VideoPlayer.state (Playback.speaking lecture 2))
     = true
  /\ (3 = length lecture ->
      let final := VideoPlayer.run_events lecture
                     (Playback.autoplay 2 ++ [VideoPlayer.UtteranceEnded]) in
      VideoPlayer.isFinished (VideoPlayer.state final) = true
      /\ VideoPlayer.isPlaying (VideoPlayer.state final) = false
      /\ VideoPlayer.currentSlideIndex (VideoPlayer.state final) = Z.of_nat 2
      /\ VideoPlayer.timers final = []).
Proof.
  apply (PlayerProperties.autoplay_narrates_every_slide lecture 2).
  cbn. lia.
Defined.

End SampleProperties.
